(** * aws-cleaner: the snapshot selection engine

    A shallow embedding of the two variants of [package services] found in
    the repository,

    - [src/services/snapshots.go]  (module [Services]) and
    - [src/unnamed/part_000]       (module [Part000]),

    followed by the properties of the ordering policy
    ([sortByCreatedTime]), the retention resolver ([getToDeleteSnapshots])
    and the orchestrator ([CleanupSnapshots]).

    Go values are modelled as follows: [int] and [time.Time] instants are
    integers of [Z]; a nilable pointer [*T] is an [option T]; a slice is a
    [list]; a function that logs, calls the EC2 client, panics or leaves
    the process is a computation of the monad [Go]. *)

From Stdlib Require Import ZArith List String Bool Lia Permutation Sorted.
Import ListNotations.

Local Open Scope string_scope.
Local Open Scope list_scope.
Local Open Scope Z_scope.

(** ** Outcomes of a Go call *)

(** The two run-time panics the code can raise. *)
Inductive PanicCause : Type :=
| NilDereference      (* invalid memory address or nil pointer dereference *)
| SliceBounds.        (* slice bounds out of range *)

(** How a call ends: it returns, it panics (nothing in the repository
    recovers), or it leaves the process through [os.Exit]. *)
Inductive Outcome (A : Type) : Type :=
| Return (a : A)
| Panic  (cause : PanicCause)
| Exit   (code : Z).

Arguments Return {A} a.
Arguments Panic {A} cause.
Arguments Exit {A} code.

Definition obind {A B : Type} (m : Outcome A) (k : A -> Outcome B) : Outcome B :=
  match m with
  | Return a => k a
  | Panic c => Panic c
  | Exit z => Exit z
  end.

Notation "x <-o m ;; k" := (obind m (fun x => k))
  (at level 61, m at next level, right associativity).

(** [*p] for a nilable pointer [p]. *)
Definition deref {A : Type} (p : option A) : Outcome A :=
  match p with
  | Some a => Return a
  | None => Panic NilDereference
  end.

(** ** Observable effects: log entries and calls of the deletion executor *)

Inductive Level : Type := DebugLevel | InfoLevel | WarnLevel | ErrorLevel.

(** An argument handed to a [printf]-style logger call.  The formatted text
    itself is produced by zap and is not modelled; the entry keeps the
    format string and the values. *)
Inductive Arg : Type :=
| ArgInt  (n : Z)
| ArgStr  (s : string)
| ArgTime (t : Z)                (* t.Format("2006-01-02 15:04:05") *)
| ArgPtr  (p : option string)    (* a *string printed with %v *)
| ArgErr  (e : string).

Inductive Event : Type :=
| Log (lvl : Level) (format : string) (args : list Arg)
| CallDeleteSnapshot (id : option string).   (* client.DeleteSnapshot *)

(** The computation monad: the events produced so far and how the call
    ended.  Events after a panic or an exit do not happen. *)
Definition Go (A : Type) : Type := (list Event * Outcome A)%type.

Definition ret {A : Type} (a : A) : Go A := ([], Return a).

Definition bind {A B : Type} (m : Go A) (k : A -> Go B) : Go B :=
  match m with
  | (t, Return a) => let (t', r) := k a in (t ++ t', r)
  | (t, Panic c) => (t, Panic c)
  | (t, Exit z) => (t, Exit z)
  end.

Notation "x <- m ;; k" := (bind m (fun x => k))
  (at level 61, m at next level, right associativity).
Notation "m ;;; k" := (bind m (fun _ => k))
  (at level 61, right associativity).

Definition emit (e : Event) : Go unit := ([e], Return tt).
Definition lift {A : Type} (o : Outcome A) : Go A := ([], o).

(** [os.Exit(code)]: never returns. *)
Definition os_Exit {A : Type} (code : Z) : Go A := ([], Exit code).

(** [for _, x := range l { body(x) }] *)
Fixpoint for_range {A : Type} (body : A -> Go unit) (l : list A) : Go unit :=
  match l with
  | [] => ret tt
  | x :: rest => body x ;;; for_range body rest
  end.

Definition trace {A : Type} (m : Go A) : list Event := fst m.
Definition outcome {A : Type} (m : Go A) : Outcome A := snd m.

(** ** package logger (src/logger/logger.go)

    The wrappers forward to the global zap loggers, which [InitLogger] sets
    up before the services run.  Each call is recorded as one [Log] event;
    filtering by [LOG_LEVEL] happens inside zap. *)
Module logger.

Definition Infof (format : string) (args : list Arg) : Go unit :=
  emit (Log InfoLevel format args).
Definition Errorf (format : string) (args : list Arg) : Go unit :=
  emit (Log ErrorLevel format args).
Definition Info (msg : string) : Go unit := emit (Log InfoLevel msg []).
Definition Debug (msg : string) : Go unit := emit (Log DebugLevel msg []).
Definition Error (msg : string) : Go unit := emit (Log ErrorLevel msg []).

End logger.

(** ** Data: types.Snapshot and the EC2 client *)

(** The three fields of [types.Snapshot] the code reads, all pointers. *)
Record Snapshot : Type := mkSnapshot {
  SnapshotId : option string;
  StartTime  : option Z;
  VolumeId   : option string
}.

(** [aws.ToString]: the empty string for nil. *)
Definition aws_ToString (p : option string) : string :=
  match p with
  | Some s => s
  | None => ""
  end.

Record DescribeSnapshotsOutput : Type := mkOutput {
  Snapshots : list Snapshot
}.

(** The part of [*ec2.Client] the orchestrator uses.  [DescribeSnapshots]
    takes the name and the values of the single filter and yields Go's pair
    [(out, err)]; [DeleteSnapshot] takes the id and yields [err]. *)
Record Client : Type := mkClient {
  DescribeSnapshots : string -> list string ->
                      option DescribeSnapshotsOutput * option string;
  DeleteSnapshot : option string -> option string
}.

(** ** Slice expressions *)

Definition len {A : Type} (l : list A) : Z := Z.of_nat (List.length l).

(** [s[lo:]]; panics unless [0 <= lo <= len(s)]. *)
Definition slice_from {A : Type} (s : list A) (lo : Z) : Outcome (list A) :=
  if (lo <? 0) || (len s <? lo) then Panic SliceBounds
  else Return (skipn (Z.to_nat lo) s).

(** [s[:hi]]; panics unless [0 <= hi <= cap(s)].  The capacity is taken to
    be the length: every use below is guarded by [hi < len(s)]. *)
Definition slice_to {A : Type} (s : list A) (hi : Z) : Outcome (list A) :=
  if (hi <? 0) || (len s <? hi) then Panic SliceBounds
  else Return (firstn (Z.to_nat hi) s).

(** ** sort.Slice

    [sort.Slice(x, less)] belongs to Go's standard library.  The services
    are parameterised by it; [less] may panic, hence the [Outcome]s. *)
Class SliceSort : Type :=
  sort_Slice : forall A : Type,
    (A -> A -> Outcome bool) -> list A -> Outcome (list A).

(** The requirement [sort.Interface] puts on [Less]: a strict weak order. *)
Record StrictWeakOrder {A : Type} (f : A -> A -> bool) : Prop := {
  swo_asym : forall a b, f a b = true -> f b a = false;
  swo_negtrans : forall a b c, f a b = false -> f b c = false -> f a c = false
}.

(** [pure f] is the comparator that never panics. *)
Definition pure {A : Type} (f : A -> A -> bool) : A -> A -> Outcome bool :=
  fun a b => Return (f a b).

(** What the documentation of [sort.Slice] promises: the slice is permuted
    in place, and for a [less] that is a strict weak order no element is
    less than one placed before it. *)
Class SliceSortSpec (S : SliceSort) : Prop :=
  sort_Slice_spec :
    forall (A : Type) (f : A -> A -> bool) (l : list A),
    exists l', sort_Slice A (pure f) l = Return l' /\
               Permutation l l' /\
               (StrictWeakOrder f ->
                StronglySorted (fun a b => f b a = false) l').

(** The algorithm [sort.Slice] runs on short slices (at most 12 elements):
    [insertionSortLessFunc],

      for i := a + 1; i < b; i++ {
        for j := i; j > a && data.Less(j, j-1); j-- { data.Swap(j, j-1) }
      }

    The sorted prefix is kept reversed, so that its last element comes
    first. *)
Fixpoint insert_back {A : Type} (less : A -> A -> Outcome bool)
    (x : A) (rprefix : list A) : Outcome (list A) :=
  match rprefix with
  | [] => Return [x]
  | p :: rest =>
      b <-o less x p ;;
      if b : bool then r <-o insert_back less x rest ;; Return (p :: r)
      else Return (x :: rprefix)
  end.

Fixpoint insertion_loop {A : Type} (less : A -> A -> Outcome bool)
    (rprefix todo : list A) : Outcome (list A) :=
  match todo with
  | [] => Return (rev rprefix)
  | x :: rest =>
      rprefix' <-o insert_back less x rprefix ;;
      insertion_loop less rprefix' rest
  end.

Definition insertionSort : SliceSort :=
  fun A less l => insertion_loop less [] l.

(** ** src/services/snapshots.go *)
Module Services.

Definition printSnapShotsList (snapshotList : list Snapshot) (message : string)
  : Go unit :=
  for_range (fun snap =>
    let ts := match StartTime snap with
              | Some t => ArgTime t
              | None => ArgStr "-"
              end in
    logger.Infof "%s SnapshotID=%s, StartTime=%s, VolumeId=%s"
      [ArgStr message; ArgStr (aws_ToString (SnapshotId snap)); ts;
       ArgStr (aws_ToString (VolumeId snap))])
    snapshotList.

(** The closure handed to [sort.Slice], on the elements at [i] and [j].
    [ti.After( *tj)] is [tj < ti] and [ti.Before( *tj)] is [ti < tj]. *)
Definition less (order : string) (si sj : Snapshot) : bool :=
  let ti := StartTime si in
  let tj := StartTime sj in
  if String.eqb order "desc" then
    match ti with
    | None => false
    | Some vi =>
        match tj with
        | None => true
        | Some vj => vj <? vi
        end
    end
  else
    (* default asc *)
    match ti with
    | None => false
    | Some vi =>
        match tj with
        | None => true
        | Some vj => vi <? vj
        end
    end.

Section WithSort.
Context {SS : SliceSort}.

Definition sortByCreatedTime (snapshotList : list Snapshot) (order : string)
  : Outcome (list Snapshot) :=
  sort_Slice Snapshot (pure (less order)) snapshotList.

End WithSort.

Definition getToDeleteSnapshots (snapshotList : list Snapshot)
    (deleteCount keepCount : option Z) : Go (list Snapshot) :=
  let n := len snapshotList in
  if n =? 0 then ret []
  else
    match deleteCount, keepCount with
    | Some d, Some k =>
        (* both set -> log error and return nothing *)
        logger.Errorf
          "Both deleteCount (%d) and keepCount (%d) are set. Only one parameter should be used."
          [ArgInt d; ArgInt k] ;;;
        ret []
    | _, Some k =>
        (* keepCount first *)
        if k <? 0 then
          logger.Errorf "Keep count must be greater than 0" [] ;;;
          ret []
        else if k =? 0 then ret snapshotList
        else if n <=? k then ret []
        else lift (slice_from snapshotList k)
    | Some d, None =>
        if d <=? 0 then ret []
        else if n <=? d then ret snapshotList
        else lift (slice_to snapshotList d)
    | None, None => ret []
    end.

(** The context of [deleteSnapShot] bounds the call by ten seconds; a call
    that runs out of time comes back as an error of [DeleteSnapshot]. *)
Definition deleteSnapShot (snap : Snapshot) (client : Client)
  : Go (option string) :=
  emit (CallDeleteSnapshot (SnapshotId snap)) ;;;
  match DeleteSnapshot client (SnapshotId snap) with
  | Some err =>
      logger.Errorf "Failed to delete snapshot %v: %v"
        [ArgPtr (SnapshotId snap); ArgErr err] ;;;
      ret (Some err)
  | None =>
      let ts := match StartTime snap with
                | Some t => ArgTime t
                | None => ArgStr "-"
                end in
      id <- lift (deref (SnapshotId snap)) ;;
      logger.Infof "Deleted snapshot %s (%s)" [ArgStr id; ts] ;;;
      ret None
  end.

Section WithSort.
Context {SS : SliceSort}.

Definition CleanupSnapshots (client : Client) (tagKey tagValue : string)
    (deleteCount keepCount : option Z) (sortBy : string) : Go unit :=
  let (out, err) :=
    DescribeSnapshots client (String.append "tag:" tagKey) [tagValue] in
  match err with
  | Some e => logger.Errorf "Error in cleanupSnapshots: " [ArgErr e]
  | None => ret tt
  end ;;;
  o <- lift (deref out) ;;
  let removeSnapShot := Snapshots o in
  if len (Snapshots o) =? 0 then
    logger.Info "No snapshots found for given tag filter"
  else
    (* what follows the switch *)
    let after_sort (removeSnapShot : list Snapshot) : Go unit :=
      removeSnapShot <-
        getToDeleteSnapshots removeSnapShot deleteCount keepCount ;;
      printSnapShotsList removeSnapShot "Delete Snapshot: " ;;;
      for_range (fun snap => deleteSnapShot snap client ;;; ret tt)
        removeSnapShot in
    if String.eqb sortBy "created_time_asc" then
      removeSnapShot <- lift (sortByCreatedTime removeSnapShot "asc") ;;
      after_sort removeSnapShot
    else if String.eqb sortBy "created_time_desc" then
      removeSnapShot <- lift (sortByCreatedTime removeSnapShot "desc") ;;
      printSnapShotsList removeSnapShot "Sort by created time desc: " ;;;
      after_sort removeSnapShot
    else
      logger.Error "Not support that sortBy!" ;;;
      ret tt.     (* return *)

End WithSort.

End Services.

(** ** src/unnamed/part_000 *)
Module Part000.

(** [snap.StartTime.Format] dereferences the timestamp. *)
Definition printSnapShotsList (snapshotList : list Snapshot) (message : string)
  : Go unit :=
  for_range (fun snap =>
    t <- lift (deref (StartTime snap)) ;;
    logger.Infof "%s SnapshotID=%s, StartTime=%s, VolumeId=%s"
      [ArgStr message; ArgStr (aws_ToString (SnapshotId snap)); ArgTime t;
       ArgStr (aws_ToString (VolumeId snap))])
    snapshotList.

(** The closure handed to [sort.Slice]: both timestamps are dereferenced,
    the receiver of [After]/[Before] and its argument. *)
Definition less (order : string) (si sj : Snapshot) : Outcome bool :=
  if String.eqb order "desc" then
    vi <-o deref (StartTime si) ;;
    vj <-o deref (StartTime sj) ;;
    Return (vj <? vi)
  else
    (* default asc *)
    vi <-o deref (StartTime si) ;;
    vj <-o deref (StartTime sj) ;;
    Return (vi <? vj).

Section WithSort.
Context {SS : SliceSort}.

Definition sortByCreatedTime (snapshotList : list Snapshot) (order : string)
  : Outcome (list Snapshot) :=
  sort_Slice Snapshot (less order) snapshotList.

End WithSort.

Definition getToDeleteSnapshots (snapshotList : list Snapshot)
    (deleteCount keepCount : option Z) : Go (list Snapshot) :=
  let n := len snapshotList in
  if n =? 0 then ret []
  else
    match deleteCount, keepCount with
    | Some d, Some k =>
        (* both set -> log error and return nothing *)
        logger.Errorf
          "Both deleteCount (%d) and keepCount (%d) are set. Only one parameter should be used."
          [ArgInt d; ArgInt k] ;;;
        ret []
    | _, Some k =>
        if n <=? k then ret []
        else lift (slice_from snapshotList k)
    | Some d, None =>
        if d =? 0 then ret []
        else if (n <=? d) || (d <? 0) then ret snapshotList
        else lift (slice_to snapshotList d)
    | None, None => ret []
    end.

(** The call of the client is commented out in this variant. *)
Definition deleteSnapShot (snap : Snapshot) (client : Client)
  : Go (option string) :=
  ret None.

Section WithSort.
Context {SS : SliceSort}.

Definition CleanupSnapshots (client : Client) (tagKey tagValue : string)
    (deleteCount keepCount : option Z) (sortBy : string) : Go unit :=
  let (out, err) :=
    DescribeSnapshots client (String.append "tag:" tagKey) [tagValue] in
  match err with
  | Some e => logger.Errorf "Error in cleanupSnapshots: " [ArgErr e]
  | None => ret tt
  end ;;;
  o <- lift (deref out) ;;
  let removeSnapShot := Snapshots o in
  if len (Snapshots o) =? 0 then
    logger.Info "No snapshots found for given tag filter"
  else
    removeSnapShot <-
      (if String.eqb sortBy "created_time_asc" then
         lift (sortByCreatedTime removeSnapShot "asc")
       else if String.eqb sortBy "created_time_desc" then
         r <- lift (sortByCreatedTime removeSnapShot "desc") ;;
         printSnapShotsList r "Sort by created time desc: " ;;;
         ret r
       else
         logger.Error "Not support that sortBy!" ;;;
         os_Exit 1) ;;
    logger.Debug "getToDeleteSnapshots" ;;;
    removeSnapShot <-
      getToDeleteSnapshots removeSnapShot deleteCount keepCount ;;
    printSnapShotsList removeSnapShot "Delete Snapshot: " ;;;
    for_range (fun snap => deleteSnapShot snap client ;;; ret tt)
      removeSnapShot.

End WithSort.

End Part000.

(** ** Observations on a run *)

(** The ids handed to the deletion executor, in call order. *)
Fixpoint deletions (t : list Event) : list (option string) :=
  match t with
  | [] => []
  | CallDeleteSnapshot id :: rest => id :: deletions rest
  | Log _ _ _ :: rest => deletions rest
  end.

(** The exit status a run fixes by itself: the argument of [os.Exit], and 2
    for a goroutine that dies of a panic.  A call that returns leaves the
    status to its caller: in main.go the call of [CleanupSnapshots] is the
    last statement of [main], so such a run ends with status 0. *)
Definition exit_status {A : Type} (o : Outcome A) : option Z :=
  match o with
  | Return _ => None
  | Panic _ => Some 2
  | Exit code => Some code
  end.

Definition has_time (s : Snapshot) : bool :=
  match StartTime s with
  | Some _ => true
  | None => false
  end.

(** The timestamps of the records that have one, in list order. *)
Fixpoint times (l : list Snapshot) : list Z :=
  match l with
  | [] => []
  | s :: rest =>
      match StartTime s with
      | Some t => t :: times rest
      | None => times rest
      end
  end.

(** ** Sample data *)

Definition record (id : string) (t : option Z) : Snapshot :=
  mkSnapshot (Some id) t None.

Definition S1 : Snapshot := record "S1" (Some 3).
Definition S2 : Snapshot := record "S2" (Some 1).
Definition S3 : Snapshot := record "S3" (Some 2).
Definition S4 : Snapshot := record "S4" None.
Definition S5 : Snapshot := record "S5" (Some 1).

(** A client whose inventory is [inventory] and whose calls succeed. *)
Definition stock (inventory : list Snapshot) : Client :=
  mkClient (fun _ _ => (Some (mkOutput inventory), None)) (fun _ => None).

(** A client whose inventory fetch fails, the way the SDK reports it: no
    output and an error. *)
Definition unreachable : Client :=
  mkClient (fun _ _ => (None, Some "RequestError: send request failed"))
           (fun _ => None).

(** ** Vocabulary of the statements *)

(** [r] is a contiguous piece of [l] that touches one of its ends: the
    empty sequence, a prefix, a suffix or the whole list. *)
Definition SliceOf {A : Type} (r l : list A) : Prop :=
  exists pre post, l = pre ++ r ++ post /\ (pre = [] \/ post = []).

(** The counts on which the two variants of the resolver can be compared:
    a count that is present is not negative. *)
Definition nonneg (c : option Z) : Prop :=
  match c with
  | Some z => 0 <= z
  | None => True
  end.

Definition agreement (l : list Snapshot) (d k : option Z) : Prop :=
  l = [] \/ (d <> None /\ k <> None) \/ (nonneg d /\ nonneg k).


(** ** Vocabulary of the run properties *)

(** The entry [printSnapShotsList] of services/snapshots.go writes for one
    record. *)
Definition listing_entry (message : string) (s : Snapshot) : Event :=
  Log InfoLevel "%s SnapshotID=%s, StartTime=%s, VolumeId=%s"
    [ArgStr message; ArgStr (aws_ToString (SnapshotId s));
     match StartTime s with
     | Some t => ArgTime t
     | None => ArgStr "-"
     end;
     ArgStr (aws_ToString (VolumeId s))].

(** The records in front of the first one without a timestamp. *)
Fixpoint timed_prefix (l : list Snapshot) : list Snapshot :=
  match l with
  | [] => []
  | s :: rest => if has_time s then s :: timed_prefix rest else []
  end.

(** A directive under which services/snapshots.go selects nothing from an
    inventory of [n] records. *)
Definition selects_nothing (n : Z) (d k : option Z) : Prop :=
  match d, k with
  | None, None => True
  | Some _, Some _ => True
  | Some d, None => d <= 0
  | None, Some k => k < 0 \/ n <= k
  end.

(** A directive that services/snapshots.go reports as an error. *)
Definition invalid_directive (d k : option Z) : Prop :=
  match d, k with
  | Some _, Some _ => True
  | None, Some k => k < 0
  | _, _ => False
  end.

(** What the orchestrator logs about the error of the fetch. *)
Definition fetch_error_entries (err : option string) : list Event :=
  match err with
  | Some e => [Log ErrorLevel "Error in cleanupSnapshots: " [ArgErr e]]
  | None => []
  end.

(** The listing that follows the sort, which only the descending order
    has. *)
Definition sort_listing (order : string) (sorted : list Snapshot)
  : list Event :=
  if String.eqb order "desc"
  then map (listing_entry "Sort by created time desc: ") sorted
  else [].

(** The loop that ends [CleanupSnapshots] of services/snapshots.go. *)
Definition delete_each (client : Client) (selected : list Snapshot) : Go unit :=
  for_range (fun snap => Services.deleteSnapShot snap client ;;; ret tt)
    selected.

(** ** The rotating writer of src/logger/logger.go

    [TimestampedLumberjackWriter] works on files.  A file system is a map
    from paths to contents, and the calls of package os are the ones of a
    file system in which the only failure is a path that does not exist:
    [os.Open] and [os.Rename] fail on a missing file, [os.Create] makes the
    file empty, [os.Rename] replaces its target.  The mutex [fileLock] and
    the deferred [Close] calls have no counterpart. *)
Module Writer.

Definition FS : Type := string -> option string.

Definition put (fs : FS) (path data : string) : FS :=
  fun p => if String.eqb p path then Some data else fs p.

Definition remove (fs : FS) (path : string) : FS :=
  fun p => if String.eqb p path then None else fs p.

Definition no_such_file (op path : string) : string :=
  String.append op (String.append " " (String.append path ": no such file or directory")).

(** [os.Open(path)]: the contents a reader of the file gets, or an error. *)
Definition os_Open (fs : FS) (path : string) : string + string :=
  match fs path with
  | Some data => inl data
  | None => inr (no_such_file "open" path)
  end.

(** [os.Create(path)]: the file exists and is empty. *)
Definition os_Create (fs : FS) (path : string) : FS := put fs path "".

(** [os.Rename(old, new)] *)
Definition os_Rename (fs : FS) (old new : string) : FS * option string :=
  match fs old with
  | Some data => (put (remove fs old) new data, None)
  | None => (fs, Some (no_such_file "rename" old))
  end.

(** What a rotation does besides touching files. *)
Inductive Step : Type :=
| Attempt               (* a call of tryCompressAndRename *)
| Sleep (seconds : Z).  (* time.Sleep *)

Section WithWriter.
(** [gzip] is the stream compress/gzip writes for given contents;
    [baseFilename] is the field of the writer. *)
Variable gzip : string -> string.
Variable baseFilename : string.

Definition compressFile (filename : string) (fs : FS) : FS * option string :=
  match os_Open fs filename with
  | inr err => (fs, Some err)
  | inl data =>
      let fs := os_Create fs (String.append filename ".gz") in
      (* io.Copy(gzWriter, file), flushed by the deferred Close *)
      (put fs (String.append filename ".gz") (gzip data), None)
  end.

Definition tryCompressAndRename (newFilename : string) (fs : FS)
  : FS * option string :=
  match os_Open fs baseFilename with
  | inr err => (fs, Some err)
  | inl _ =>
      let tmpFile := String.append newFilename ".tmp" in
      let fs := os_Create fs tmpFile in
      match os_Rename fs baseFilename tmpFile with
      | (fs, Some err) => (fs, Some err)
      | (fs, None) =>
          match compressFile tmpFile fs with
          | (fs, Some err) => (fs, Some err)
          | (fs, None) => os_Rename fs tmpFile newFilename
          end
      end
  end.

(** The loop [for i := 0; i < 3; i++] of [compressAndRename], with [n]
    iterations left and [err] the error of the last attempt. *)
Fixpoint retry (newFilename : string) (n : nat) (err : option string)
    (fs : FS) : FS * list Step * option string :=
  match n with
  | O => (fs, [], err)
  | S n' =>
      match tryCompressAndRename newFilename fs with
      | (fs, None) => (fs, [Attempt], None)
      | (fs, Some e) =>
          let '(fs, steps, r) := retry newFilename n' (Some e) fs in
          (fs, Attempt :: Sleep 1 :: steps, r)
      end
  end.

Definition compressAndRename (newFilename : string) (fs : FS)
  : FS * list Step * option string :=
  retry newFilename 3 None fs.

(** [fmt.Sprintf("%s.%s.gz", t.baseFilename, timestamp)] *)
Definition rotatedFilename (timestamp : string) : string :=
  String.append baseFilename
    (String.append "." (String.append timestamp ".gz")).

(** [Write]: [Logger_Write] is the [Write] of the embedded
    [lumberjack.Logger], [timestamp] the formatted [time.Now()]. *)
Definition Write
    (Logger_Write : string -> FS -> FS * (Z * option string))
    (timestamp : string) (p : string) (fs : FS)
  : FS * list Step * (Z * option string) :=
  match Logger_Write p fs with
  | (fs, (n, Some err)) => (fs, [], (n, Some err))
  | (fs, (n, None)) =>
      let '(fs, steps, err) := compressAndRename (rotatedFilename timestamp) fs in
      (fs, steps, (n, err))
  end.

End WithWriter.

End Writer.

(** [maxInsertion] of package sort: [sort.Slice] runs [insertionSort] on a
    slice of at most this many elements, and pdqsort on a longer one. *)
Definition maxInsertion : nat := 12.
(** * Properties *)

(** ** The retention resolver *)

Lemma len_nonneg {A : Type} (l : list A) : 0 <= len l.
Proof. unfold len. lia. Qed.

Lemma len_zero_nil {A : Type} (l : list A) : len l = 0 -> l = [].
Proof.
  unfold len. destruct l as [|a l]; [reflexivity|].
  simpl List.length. lia.
Qed.

Lemma len_cons_pos {A : Type} (a : A) (l : list A) : 0 < len (a :: l).
Proof. unfold len. simpl List.length. lia. Qed.

Lemma len_pos {A : Type} (l : list A) : l <> [] -> 0 < len l.
Proof.
  destruct l as [|a l]; [congruence|]. intros _. apply len_cons_pos.
Qed.

Lemma skipn_len {A : Type} (l : list A) (k : Z) :
  len l <= k -> skipn (Z.to_nat k) l = [].
Proof. intros H. apply skipn_all2. unfold len in H. lia. Qed.

Lemma firstn_len {A : Type} (l : list A) (k : Z) :
  len l <= k -> firstn (Z.to_nat k) l = l.
Proof. intros H. apply firstn_all2. unfold len in H. lia. Qed.

(** Case analysis on every integer test of the goal. *)
Ltac split_tests :=
  repeat match goal with
  | |- context [?a =? ?b] => destruct (Z.eqb_spec a b)
  | |- context [?a <? ?b] => destruct (Z.ltb_spec a b)
  | |- context [?a <=? ?b] => destruct (Z.leb_spec a b)
  end.

Ltac run_resolver :=
  unfold Services.getToDeleteSnapshots, Part000.getToDeleteSnapshots,
    slice_from, slice_to, logger.Errorf, emit, lift, ret, bind;
  split_tests; simpl; try lia; try reflexivity; try congruence.

(** The remaining goals compare a slice with the list it came from. *)
Ltac close_slices l :=
  try (rewrite (len_zero_nil l) by assumption);
  subst;
  rewrite ?skipn_nil, ?firstn_nil;
  rewrite ?skipn_len, ?firstn_len by lia;
  reflexivity.

(** The resolver of services/snapshots.go never panics and never exits. *)
Lemma services_resolver_returns (l : list Snapshot) (d k : option Z) :
  exists r, outcome (Services.getToDeleteSnapshots l d k) = Return r.
Proof.
  pose proof (len_nonneg l).
  destruct d as [d|], k as [k|]; run_resolver; eauto.
Qed.

(** Keep-N in services/snapshots.go, for counts that are not negative. *)
Lemma services_keep_count (l : list Snapshot) (k : Z) :
  0 <= k ->
  Services.getToDeleteSnapshots l None (Some k) = ret (skipn (Z.to_nat k) l).
Proof.
  intros Hk. pose proof (len_nonneg l).
  run_resolver; close_slices l.
Qed.

(** Keep-N in part_000, for counts that are not negative. *)
Lemma part000_keep_count (l : list Snapshot) (k : Z) :
  0 <= k ->
  Part000.getToDeleteSnapshots l None (Some k) = ret (skipn (Z.to_nat k) l).
Proof.
  intros Hk. pose proof (len_nonneg l).
  run_resolver; close_slices l.
Qed.

(** Delete-N in services/snapshots.go: the first [d] records, none for a
    count that is zero or negative. *)
Lemma services_delete_count (l : list Snapshot) (d : Z) :
  Services.getToDeleteSnapshots l (Some d) None =
  ret (if d <=? 0 then [] else firstn (Z.to_nat d) l).
Proof.
  pose proof (len_nonneg l).
  run_resolver; close_slices l.
Qed.

(** Delete-N in part_000: the first [d] records, and the whole list for a
    negative count. *)
Lemma part000_delete_count (l : list Snapshot) (d : Z) :
  Part000.getToDeleteSnapshots l (Some d) None =
  ret (if d <? 0 then l else firstn (Z.to_nat d) l).
Proof.
  pose proof (len_nonneg l).
  run_resolver; close_slices l.
Qed.

(** A negative keep count in services/snapshots.go: one error entry, no
    record selected. *)
Lemma services_keep_negative (l : list Snapshot) (k : Z) :
  l <> [] -> k < 0 ->
  Services.getToDeleteSnapshots l None (Some k) =
  ([Log ErrorLevel "Keep count must be greater than 0" []], Return []).
Proof.
  intros Hl Hk. apply len_pos in Hl. run_resolver.
Qed.

(** A negative keep count in part_000 reaches [snapshotList[k:]]. *)
Lemma part000_keep_negative (l : list Snapshot) (k : Z) :
  l <> [] -> k < 0 ->
  Part000.getToDeleteSnapshots l None (Some k) = ([], Panic SliceBounds).
Proof.
  intros Hl Hk. apply len_pos in Hl. run_resolver.
Qed.

(** Both counts set: the entry that reports the conflict. *)
Lemma services_both_set (l : list Snapshot) (d k : Z) :
  l <> [] ->
  Services.getToDeleteSnapshots l (Some d) (Some k) =
  ([Log ErrorLevel
      "Both deleteCount (%d) and keepCount (%d) are set. Only one parameter should be used."
      [ArgInt d; ArgInt k]], Return []).
Proof.
  intros Hl. apply len_pos in Hl. run_resolver.
Qed.

(** Up to that test the two variants are the same code. *)
Lemma part000_both_set (l : list Snapshot) (d k : Z) :
  Part000.getToDeleteSnapshots l (Some d) (Some k) =
  Services.getToDeleteSnapshots l (Some d) (Some k).
Proof. reflexivity. Qed.

(** An empty list, in either variant. *)
Lemma empty_input (d k : option Z) :
  Services.getToDeleteSnapshots [] d k = ret [] /\
  Part000.getToDeleteSnapshots [] d k = ret [].
Proof. split; reflexivity. Qed.

Lemma SliceOf_nil {A : Type} (l : list A) : SliceOf [] l.
Proof. exists [], l. split; [reflexivity | now left]. Qed.

Lemma SliceOf_firstn {A : Type} (n : nat) (l : list A) : SliceOf (firstn n l) l.
Proof.
  exists [], (skipn n l). split; [|now left].
  simpl. symmetry. apply firstn_skipn.
Qed.

Lemma SliceOf_skipn {A : Type} (n : nat) (l : list A) : SliceOf (skipn n l) l.
Proof.
  exists (firstn n l), []. split; [|now right].
  rewrite app_nil_r. symmetry. apply firstn_skipn.
Qed.

Lemma SliceOf_refl {A : Type} (l : list A) : SliceOf l l.
Proof. exists [], []. split; [now rewrite app_nil_r | now left]. Qed.

Lemma SliceOf_incl {A : Type} (r l : list A) :
  SliceOf r l -> forall x, In x r -> In x l.
Proof.
  intros (pre & post & -> & _) x Hx.
  apply in_or_app. right. apply in_or_app. now left.
Qed.

Lemma SliceOf_length {A : Type} (r l : list A) :
  SliceOf r l -> (List.length r <= List.length l)%nat.
Proof.
  intros (pre & post & -> & _). rewrite !length_app. lia.
Qed.

Create HintDb slices.

#[local] Hint Resolve SliceOf_nil SliceOf_firstn SliceOf_skipn SliceOf_refl
  : slices.

(** C1. A directive with only KeepCount set, on a list of length [n], in
    both variants: KeepCount = 0 selects the whole list, in order;
    KeepCount >= n selects nothing; 0 < KeepCount < n selects exactly the
    records at positions KeepCount..n-1, in order.  No entry is logged and
    the call returns. *)
Theorem keep_count_directive (l : list Snapshot) (k : Z) :
  let n := len l in
  let services := Services.getToDeleteSnapshots l None (Some k) in
  let part000 := Part000.getToDeleteSnapshots l None (Some k) in
  (k = 0 -> services = ret l /\ part000 = ret l) /\
  (n <= k -> services = ret [] /\ part000 = ret []) /\
  (0 < k < n ->
   exists r, services = ret r /\ part000 = ret r /\
     len r = n - k /\
     forall i : nat, nth_error r i = nth_error l (Z.to_nat k + i)).
Proof.
  cbv zeta. pose proof (len_nonneg l) as Hn.
  split; [|split].
  - intros ->. now rewrite services_keep_count, part000_keep_count.
  - intros Hk.
    rewrite services_keep_count, part000_keep_count by lia.
    now rewrite skipn_len.
  - intros Hk. exists (skipn (Z.to_nat k) l).
    rewrite services_keep_count, part000_keep_count by lia.
    repeat split.
    + unfold len in *. rewrite length_skipn. lia.
    + intros i. apply nth_error_skipn.
Qed.

(** C2, at DeleteCount = -1 on two records: part_000 selects both records,
    services/snapshots.go selects none. *)
Theorem delete_count_minus_one :
  Part000.getToDeleteSnapshots [S1; S2] (Some (-1)) None = ret [S1; S2] /\
  Services.getToDeleteSnapshots [S1; S2] (Some (-1)) None = ret [].
Proof. split; reflexivity. Qed.

(** X1. A directive with only DeleteCount set, in services/snapshots.go, on a
    list of length [n]: DeleteCount <= 0 selects nothing, DeleteCount >= n
    selects the whole list, 0 < DeleteCount < n selects exactly the first
    DeleteCount records, in order. *)
Lemma services_delete_count_directive (l : list Snapshot) (d : Z) :
  let n := len l in
  let services := Services.getToDeleteSnapshots l (Some d) None in
  (d <= 0 -> services = ret []) /\
  (n <= d -> services = ret l) /\
  (0 < d < n ->
   exists r, services = ret r /\ len r = d /\
     forall i : nat, (i < Z.to_nat d)%nat -> nth_error r i = nth_error l i).
Proof.
  cbv zeta. pose proof (len_nonneg l) as Hn.
  rewrite services_delete_count.
  split; [|split].
  - intros Hd. destruct (Z.leb_spec d 0); [reflexivity | lia].
  - intros Hd. destruct (Z.leb_spec d 0).
    + assert (len l = 0) as H0 by lia. now rewrite (len_zero_nil l H0).
    + now rewrite firstn_len.
  - intros Hd. destruct (Z.leb_spec d 0); [lia|].
    exists (firstn (Z.to_nat d) l). repeat split.
    + unfold len in *. rewrite length_firstn. lia.
    + intros i Hi. rewrite nth_error_firstn.
      destruct (Nat.ltb_spec i (Z.to_nat d)); [reflexivity | lia].
Qed.

(** A negative DeleteCount in part_000 selects every record. *)
Lemma part000_delete_negative (l : list Snapshot) (d : Z) :
  d < 0 -> Part000.getToDeleteSnapshots l (Some d) None = ret l.
Proof.
  intros Hd. rewrite part000_delete_count.
  destruct (Z.ltb_spec d 0); [reflexivity | lia].
Qed.

(** C4. On a non-empty list, with both counts set to any integers, both
    variants select nothing and signal the conflict: the only effect is one
    error-level entry that names the two counts.  In particular the result
    does not depend on the counts. *)
Theorem conflicting_directive (l : list Snapshot) (d k : Z) :
  l <> [] ->
  let services := Services.getToDeleteSnapshots l (Some d) (Some k) in
  let part000 := Part000.getToDeleteSnapshots l (Some d) (Some k) in
  outcome services = Return [] /\
  outcome part000 = Return [] /\
  trace services =
    [Log ErrorLevel
       "Both deleteCount (%d) and keepCount (%d) are set. Only one parameter should be used."
       [ArgInt d; ArgInt k]] /\
  trace part000 = trace services.
Proof.
  intros Hl. cbv zeta.
  rewrite part000_both_set, (services_both_set l d k Hl).
  repeat split; reflexivity.
Qed.

Lemma conflicting_directive_witness :
  [S1; S2; S3] <> [] /\
  outcome (Services.getToDeleteSnapshots [S1; S2; S3] (Some 3) (Some 2))
  = Return [] /\
  outcome (Part000.getToDeleteSnapshots [S1; S2; S3] (Some 0) (Some (-1)))
  = Return [].
Proof.
  assert ([S1; S2; S3] <> []) as H by discriminate.
  split; [exact H|]. split.
  - exact (proj1 (conflicting_directive [S1; S2; S3] 3 2 H)).
  - exact (proj1 (proj2 (conflicting_directive [S1; S2; S3] 0 (-1) H))).
Defined.

(** C5, at KeepCount = -1 on one record: part_000 panics on the slice
    expression, services/snapshots.go logs an error and selects nothing. *)
Theorem keep_count_minus_one :
  Part000.getToDeleteSnapshots [S1] None (Some (-1)) = ([], Panic SliceBounds) /\
  Services.getToDeleteSnapshots [S1] None (Some (-1)) =
  ([Log ErrorLevel "Keep count must be greater than 0" []], Return []).
Proof. split; reflexivity. Qed.

(** C9, at a count of -1 given alone on one record.  With DeleteCount = -1
    services/snapshots.go selects nothing and part_000 selects the record;
    with KeepCount = -1 services/snapshots.go logs an error and selects
    nothing and part_000 panics on the slice expression.  In both cases
    the two variants do not compute the same delete-set. *)
Theorem variants_on_negative_counts :
  Services.getToDeleteSnapshots [S1] (Some (-1)) None = ret [] /\
  Part000.getToDeleteSnapshots [S1] (Some (-1)) None = ret [S1] /\
  Services.getToDeleteSnapshots [S1] None (Some (-1)) =
  ([Log ErrorLevel "Keep count must be greater than 0" []], Return []) /\
  Part000.getToDeleteSnapshots [S1] None (Some (-1)) = ([], Panic SliceBounds) /\
  outcome (Services.getToDeleteSnapshots [S1] (Some (-1)) None) <>
  outcome (Part000.getToDeleteSnapshots [S1] (Some (-1)) None) /\
  outcome (Services.getToDeleteSnapshots [S1] None (Some (-1))) <>
  outcome (Part000.getToDeleteSnapshots [S1] None (Some (-1))).
Proof. repeat split; solve [reflexivity | discriminate]. Qed.

(** Where the two variants of the resolver agree.  They produce the same
    delete-set and the same log entries on every list whenever the list is
    empty, both counts are set, or no count that is set is negative; on
    every other input (a negative count given alone, on a non-empty list)
    their delete-sets differ. *)
Lemma variants_agree_off_negative_counts (l : list Snapshot) (d k : option Z) :
  (agreement l d k ->
   Services.getToDeleteSnapshots l d k = Part000.getToDeleteSnapshots l d k) /\
  (~ agreement l d k ->
   outcome (Services.getToDeleteSnapshots l d k) <>
   outcome (Part000.getToDeleteSnapshots l d k)).
Proof.
  unfold agreement. split.
  - intros [-> | [[Hd Hk] | [Hd Hk]]].
    + reflexivity.
    + destruct d as [d|], k as [k|]; try congruence.
      now rewrite part000_both_set.
    + destruct d as [d|], k as [k|]; simpl in Hd, Hk.
      * now rewrite part000_both_set.
      * rewrite services_delete_count, part000_delete_count.
        destruct (Z.ltb_spec d 0); [lia|].
        destruct (Z.leb_spec d 0); [|reflexivity].
        assert (d = 0) as -> by lia. reflexivity.
      * now rewrite services_keep_count, part000_keep_count.
      * pose proof (len_nonneg l). run_resolver.
  - intros Hno.
    assert (l <> []) as Hl by tauto.
    destruct d as [d|], k as [k|]; simpl in Hno.
    + exfalso. apply Hno. right. left. split; discriminate.
    + assert (d < 0) as Hd by (simpl in *; lia).
      rewrite services_delete_count, part000_delete_count.
      destruct (Z.ltb_spec d 0); [|lia].
      destruct (Z.leb_spec d 0); [|lia].
      simpl. intros E. inversion E. congruence.
    + assert (k < 0) as Hk by (simpl in *; lia).
      rewrite services_keep_negative, part000_keep_negative by assumption.
      discriminate.
    + exfalso. apply Hno. right. right. simpl. tauto.
Qed.

(** C10. Whatever the list and the counts, the delete-set a variant returns
    is a contiguous slice of its input (empty, a prefix, a suffix or the
    whole list), so each of its records occurs in the input and it is no
    longer than the input.  services/snapshots.go always returns one;
    part_000 returns one except for a negative KeepCount given alone on a
    non-empty list, where it panics. *)
Theorem delete_set_is_slice (l : list Snapshot) (d k : option Z) :
  (exists r, outcome (Services.getToDeleteSnapshots l d k) = Return r /\
     SliceOf r l /\ (forall x, In x r -> In x l) /\
     (List.length r <= List.length l)%nat) /\
  ((exists r, outcome (Part000.getToDeleteSnapshots l d k) = Return r /\
     SliceOf r l /\ (forall x, In x r -> In x l) /\
     (List.length r <= List.length l)%nat) \/
   (outcome (Part000.getToDeleteSnapshots l d k) = Panic SliceBounds /\
    l <> [] /\ d = None /\ exists z, k = Some z /\ z < 0)).
Proof.
  assert (forall r : list Snapshot, SliceOf r l ->
            SliceOf r l /\ (forall x, In x r -> In x l) /\
            (List.length r <= List.length l)%nat) as pack.
  { intros r Hr. split; [exact Hr|]. split.
    - now apply SliceOf_incl.
    - now apply SliceOf_length. }
  destruct l as [|s l].
  { split; [|left]; exists []; (split; [reflexivity | apply pack; auto with slices]). }
  assert (s :: l <> []) as Hl by discriminate.
  destruct d as [d|], k as [k|].
  - rewrite part000_both_set, (services_both_set (s :: l) d k Hl).
    split; [|left]; exists []; (split; [reflexivity | apply pack; auto with slices]).
  - rewrite services_delete_count, part000_delete_count. split; [|left].
    + destruct (d <=? 0); eexists; (split; [reflexivity | apply pack; auto with slices]).
    + destruct (d <? 0); eexists; (split; [reflexivity | apply pack; auto with slices]).
  - destruct (Z.ltb_spec k 0).
    + rewrite services_keep_negative, part000_keep_negative by assumption.
      split.
      * exists []. split; [reflexivity | apply pack; auto with slices].
      * right. repeat split; try assumption. now exists k.
    + rewrite services_keep_count, part000_keep_count by assumption.
      split; [|left]; eexists; (split; [reflexivity | apply pack; auto with slices]).
  - split; [|left]; exists []; (split; [reflexivity | apply pack; auto with slices]).
Qed.

(** ** sort.Slice on short slices meets its contract *)

Section InsertionSort.
Context {A : Type} (f : A -> A -> bool).

(** The reversed prefix is ordered when no element is less than one that
    follows it in the list, that is, precedes it in the slice. *)
Let R' (a b : A) : Prop := f a b = false.

Lemma insert_back_pure (x : A) (r : list A) :
  exists r', insert_back (pure f) x r = Return r' /\
    Permutation (x :: r) r' /\
    (StrictWeakOrder f -> StronglySorted R' r -> StronglySorted R' r').
Proof.
  induction r as [|p rest IH].
  - exists [x]. repeat split; auto. intros _ _.
    constructor; constructor.
  - simpl.
    destruct (f x p) eqn:Hxp.
    + destruct IH as (r' & -> & Hperm & Hsorted). simpl.
      exists (p :: r'). repeat split.
      * rewrite perm_swap. now constructor.
      * intros Hf Hs. inversion Hs as [|? ? Hrest Hall]; subst.
        constructor; [now apply Hsorted|].
        apply (Permutation_Forall Hperm).
        constructor; [|exact Hall].
        unfold R'. now apply (swo_asym f Hf).
    + exists (x :: p :: rest). repeat split; auto.
      intros Hf Hs. constructor; [exact Hs|].
      inversion Hs as [|? ? Hrest Hall]; subst.
      constructor; [exact Hxp|].
      apply (Forall_impl _ (P := R' p)); [|exact Hall].
      intros q Hpq. unfold R' in *. now apply (swo_negtrans f Hf x p q).
Qed.

Lemma StronglySorted_snoc (Q : A -> A -> Prop) (l : list A) (a : A) :
  StronglySorted Q l -> Forall (fun b => Q b a) l ->
  StronglySorted Q (l ++ [a]).
Proof.
  induction 1 as [|b l Hl IH Hb]; intros Hall; simpl.
  - constructor; constructor.
  - inversion Hall; subst. constructor; [now apply IH|].
    apply Forall_app. split; [exact Hb|]. now constructor.
Qed.

Lemma StronglySorted_rev (Q : A -> A -> Prop) (l : list A) :
  StronglySorted Q l -> StronglySorted (fun a b => Q b a) (rev l).
Proof.
  induction 1 as [|a l Hl IH Ha]; simpl.
  - constructor.
  - apply StronglySorted_snoc; [exact IH|].
    apply Forall_rev. exact Ha.
Qed.

Lemma insertion_loop_pure (todo r : list A) :
  exists out, insertion_loop (pure f) r todo = Return out /\
    Permutation (rev r ++ todo) out /\
    (StrictWeakOrder f -> StronglySorted R' r ->
     StronglySorted (fun a b => f b a = false) out).
Proof.
  revert r. induction todo as [|x rest IH]; intros r; simpl.
  - exists (rev r). repeat split.
    + now rewrite app_nil_r.
    + intros _ Hs. now apply (StronglySorted_rev R').
  - destruct (insert_back_pure x r) as (r' & -> & Hperm & Hsorted). simpl.
    destruct (IH r') as (out & -> & Hperm' & Hsorted').
    exists out. repeat split.
    + rewrite <- Hperm'.
      rewrite <- (Permutation_rev r'), <- Hperm.
      rewrite <- Permutation_middle.
      now rewrite <- (Permutation_rev r).
    + intros Hf Hs. apply Hsorted'; auto.
Qed.

End InsertionSort.

(** Insertion sort is a [sort.Slice]. *)
Lemma insertionSort_spec : SliceSortSpec insertionSort.
Proof.
  intros A f l. unfold sort_Slice, insertionSort.
  destruct (insertion_loop_pure f l []) as (out & Hrun & Hperm & Hsorted).
  exists out. repeat split; auto.
  intros Hf. apply Hsorted; [exact Hf | constructor].
Qed.

(** ** The ordering policy of services/snapshots.go *)

(** The comparator is a strict weak order, whatever the order string. *)
Lemma services_less_swo (order : string) : StrictWeakOrder (Services.less order).
Proof.
  split.
  - intros a b. unfold Services.less.
    destruct (String.eqb order "desc"), (StartTime a), (StartTime b);
      try congruence; split_tests; intros; solve [congruence | lia].
  - intros a b c. unfold Services.less.
    destruct (String.eqb order "desc"), (StartTime a), (StartTime b),
      (StartTime c); try congruence; split_tests; intros;
      solve [congruence | lia].
Qed.

(** What a sorted slice looks like, position by position. *)
Lemma StronglySorted_nth {A : Type} (Q : A -> A -> Prop) (l : list A) :
  StronglySorted Q l ->
  forall (i j : nat) (a b : A), (i < j)%nat ->
    nth_error l i = Some a -> nth_error l j = Some b -> Q a b.
Proof.
  induction 1 as [|x l Hl IH Hx]; intros i j a b Hij Hi Hj.
  - destruct i; discriminate.
  - destruct j as [|j]; [lia|]. simpl in Hj.
    destruct i as [|i]; simpl in Hi.
    + injection Hi as <-. rewrite Forall_forall in Hx.
      apply Hx. now apply (nth_error_In l j).
    + apply (IH i j); auto. lia.
Qed.

Section ServicesOrdering.
Context {SS : SliceSort} {Spec : SliceSortSpec SS}.

(** Sorting returns a permutation of the inventory in which no record is
    less than one placed before it. *)
Lemma services_sort_returns (l : list Snapshot) (order : string) :
  exists out, Services.sortByCreatedTime l order = Return out /\
    Permutation l out /\
    StronglySorted (fun a b => Services.less order b a = false) out.
Proof.
  unfold Services.sortByCreatedTime.
  destruct (sort_Slice_spec Snapshot (Services.less order) l)
    as (out & Hrun & Hperm & Hsorted).
  exists out. repeat split; auto.
  apply Hsorted, services_less_swo.
Qed.

(** X6. The ordering of services/snapshots.go.  Sorting returns a permutation
    [out] of the records in which a record without a timestamp comes after
    every record that has one, in either direction, and in which of two
    records with different timestamps the earlier comes first when the
    order is not "desc" and the later comes first when it is. *)
Lemma services_sort_order (l : list Snapshot) (order : string) :
  exists out, Services.sortByCreatedTime l order = Return out /\
    Permutation l out /\
    forall (i j : nat) (a b : Snapshot),
      nth_error out i = Some a -> nth_error out j = Some b ->
      (StartTime a = None -> StartTime b <> None -> (j < i)%nat) /\
      (forall ta tb, StartTime a = Some ta -> StartTime b = Some tb ->
         ta < tb ->
         if String.eqb order "desc" then (j < i)%nat else (i < j)%nat).
Proof.
  destruct (services_sort_returns l order) as (out & Hrun & Hperm & Hsorted).
  exists out. split; [exact Hrun|]. split; [exact Hperm|].
  intros i j a b Hi Hj.
  assert (forall i j a b, (i < j)%nat ->
            nth_error out i = Some a -> nth_error out j = Some b ->
            Services.less order b a = false) as before.
  { intros i' j' a' b' Hlt Ha' Hb'.
    exact (StronglySorted_nth _ out Hsorted i' j' a' b' Hlt Ha' Hb'). }
  split.
  - intros Ha Hb.
    destruct (Nat.lt_trichotomy i j) as [Hij | [-> | Hij]];
      [|congruence|exact Hij].
    pose proof (before i j a b Hij Hi Hj) as Hle.
    unfold Services.less in Hle. rewrite Ha in Hle.
    destruct (StartTime b); [|congruence].
    destruct (String.eqb order "desc"); discriminate.
  - intros ta tb Ha Hb Hlt.
    assert (i <> j) as Hne.
    { intros ->. rewrite Hi in Hj. injection Hj as <-.
      rewrite Ha in Hb. injection Hb as <-. lia. }
    destruct (String.eqb order "desc") eqn:Ho.
    + destruct (Nat.lt_trichotomy i j) as [Hij | [-> | Hij]];
        [|congruence|exact Hij].
      pose proof (before i j a b Hij Hi Hj) as Hle.
      unfold Services.less in Hle.
      rewrite Ho, Ha, Hb in Hle. apply Z.ltb_ge in Hle. lia.
    + destruct (Nat.lt_trichotomy i j) as [Hij | [-> | Hij]];
        [exact Hij|congruence|].
      pose proof (before j i b a Hij Hj Hi) as Hle.
      unfold Services.less in Hle.
      rewrite Ho, Ha, Hb in Hle. apply Z.ltb_ge in Hle. lia.
Qed.

End ServicesOrdering.

(** ** Timestamps of a sorted inventory *)

Lemma times_In (t : Z) (l : list Snapshot) :
  In t (times l) <-> exists s, In s l /\ StartTime s = Some t.
Proof.
  induction l as [|a l IH]; simpl.
  - split; [tauto | intros (s & [] & _)].
  - destruct (StartTime a) as [ta|] eqn:Ha; simpl; rewrite IH; split.
    + intros [<- | (s & Hs & Ht)]; [exists a | exists s]; auto.
    + intros (s & [<- | Hs] & Ht); [left; congruence | right; eauto].
    + intros (s & Hs & Ht). eauto.
    + intros (s & [<- | Hs] & Ht); [congruence | eauto].
Qed.

Lemma times_app (l1 l2 : list Snapshot) :
  times (l1 ++ l2) = times l1 ++ times l2.
Proof.
  induction l1 as [|a l1 IH]; simpl; [reflexivity|].
  destruct (StartTime a); simpl; now rewrite IH.
Qed.

Lemma times_rev (l : list Snapshot) : times (rev l) = rev (times l).
Proof.
  induction l as [|a l IH]; simpl; [reflexivity|].
  rewrite times_app, IH. simpl.
  destruct (StartTime a); simpl; [reflexivity | now rewrite app_nil_r].
Qed.

Lemma times_filter (l : list Snapshot) : times (filter has_time l) = times l.
Proof.
  induction l as [|a l IH]; simpl; [reflexivity|].
  unfold has_time at 1.
  destruct (StartTime a) eqn:Ha; simpl; rewrite ?Ha; now rewrite IH.
Qed.

Lemma times_perm (l l' : list Snapshot) :
  Permutation l l' -> Permutation (times l) (times l').
Proof.
  induction 1 as [|a l l' _ IH|a b l|l l' l'' _ IH1 _ IH2]; simpl.
  - constructor.
  - destruct (StartTime a); [now constructor | exact IH].
  - destruct (StartTime a), (StartTime b); auto. apply perm_swap.
  - now transitivity (times l').
Qed.

Lemma filter_perm {A : Type} (p : A -> bool) (l l' : list A) :
  Permutation l l' -> Permutation (filter p l) (filter p l').
Proof.
  induction 1 as [|a l l' _ IH|a b l|l l' l'' _ IH1 _ IH2]; simpl.
  - constructor.
  - destruct (p a); [now constructor | exact IH].
  - destruct (p a), (p b); auto. apply perm_swap.
  - now transitivity (filter p l').
Qed.

(** Two sorted arrangements of the same integers coincide. *)
Lemma sorted_perm_unique {A : Type} (Q : A -> A -> Prop) :
  (forall x y, Q x y -> Q y x -> x = y) ->
  forall l1 l2, StronglySorted Q l1 -> StronglySorted Q l2 ->
    Permutation l1 l2 -> l1 = l2.
Proof.
  intros anti l1. induction l1 as [|x l1 IH]; intros l2 H1 H2 Hp.
  - apply Permutation_nil in Hp. now subst.
  - destruct l2 as [|y l2].
    + symmetry in Hp. now apply Permutation_nil in Hp.
    + inversion H1 as [|? ? H1' Hx]; inversion H2 as [|? ? H2' Hy]; subst.
      rewrite Forall_forall in Hx, Hy.
      assert (x = y) as ->.
      { assert (In y (x :: l1)) as [-> | Hin]
          by (apply (Permutation_in y (Permutation_sym Hp)); now left);
          [reflexivity|].
        assert (In x (y :: l2)) as [-> | Hin']
          by (apply (Permutation_in x Hp); now left); [reflexivity|].
        apply anti; auto. }
      f_equal. apply IH; auto. now apply Permutation_cons_inv in Hp.
Qed.

(** Records whose timestamps are pairwise distinct are fixed by the
    sequence of their timestamps. *)
Lemma distinct_times_fix_records (l1 l2 : list Snapshot) :
  Forall (fun s => has_time s = true) l1 ->
  Permutation l1 l2 -> times l1 = times l2 -> NoDup (times l1) -> l1 = l2.
Proof.
  revert l2. induction l1 as [|a l1 IH]; intros l2 Hall Hp Ht Hnd.
  - apply Permutation_nil in Hp. now subst.
  - destruct l2 as [|b l2].
    + symmetry in Hp. now apply Permutation_nil in Hp.
    + inversion Hall as [|? ? Ha Hall']; subst.
      unfold has_time in Ha. simpl in Ht, Hnd.
      destruct (StartTime a) as [ta|] eqn:Hta; [|discriminate].
      assert (In b (a :: l1)) as Hb
        by (apply (Permutation_in b (Permutation_sym Hp)); now left).
      assert (has_time b = true) as Hbt
        by (rewrite Forall_forall in Hall; now apply Hall).
      unfold has_time in Hbt.
      destruct (StartTime b) as [tb|] eqn:Htb; [|discriminate].
      injection Ht as -> Ht'. inversion Hnd as [|? ? Hnotin Hnd']; subst.
      assert (a = b) as ->.
      { destruct Hb as [Hb | Hb]; [exact Hb|].
        exfalso. apply Hnotin. apply times_In. now exists b. }
      f_equal. apply IH; auto. now apply Permutation_cons_inv in Hp.
Qed.

Lemma untimed_times (l : list Snapshot) :
  Forall (fun s => StartTime s = None) l ->
  times l = [] /\ map has_time l = repeat false (List.length l).
Proof.
  induction 1 as [|a l Ha _ [IH1 IH2]]; simpl; [now split|].
  rewrite IH2. unfold has_time. rewrite Ha. now rewrite IH1.
Qed.

Section SortedInventory.
Variable order : string.

Let sorted_by (L : list Snapshot) : Prop :=
  StronglySorted (fun a b => Services.less order b a = false) L.

(** The records with a timestamp come first, the others fill the tail. *)
Lemma sorted_shape (L : list Snapshot) :
  sorted_by L ->
  map has_time L =
  repeat true (List.length (times L)) ++
  repeat false (List.length L - List.length (times L)).
Proof.
  induction 1 as [|a l Hl IH Ha]; [reflexivity|].
  simpl. unfold has_time at 1.
  destruct (StartTime a) as [ta|] eqn:Hta; simpl.
  - now rewrite IH.
  - assert (Forall (fun s => StartTime s = None) l) as Hnone.
    { apply (Forall_impl _ (P := fun b => Services.less order b a = false));
        [|exact Ha].
      intros b Hb. unfold Services.less in Hb. rewrite Hta in Hb.
      destruct (StartTime b); [|reflexivity].
      destruct (String.eqb order "desc"); discriminate. }
    destruct (untimed_times l Hnone) as [-> ->]. reflexivity.
Qed.

(** A record with a timestamp is followed by no earlier one in the default
    order, and by no later one in the order "desc". *)
Lemma sorted_head_bound (a : Snapshot) (l : list Snapshot) (ta t : Z) :
  Forall (fun b => Services.less order b a = false) l ->
  StartTime a = Some ta -> In t (times l) ->
  if String.eqb order "desc" then t <= ta else ta <= t.
Proof.
  intros Ha Hta Ht.
  apply times_In in Ht. destruct Ht as (s & Hs & Hst).
  rewrite Forall_forall in Ha. specialize (Ha s Hs).
  unfold Services.less in Ha. rewrite Hst, Hta in Ha.
  destruct (String.eqb order "desc"); apply Z.ltb_ge in Ha; exact Ha.
Qed.

(** The timestamps never decrease in the default order. *)
Lemma sorted_times_asc (L : list Snapshot) :
  sorted_by L -> String.eqb order "desc" = false ->
  StronglySorted Z.le (times L).
Proof.
  intros HL Ho. induction HL as [|a l Hl IH Ha]; simpl; [constructor|].
  destruct (StartTime a) as [ta|] eqn:Hta; [|exact IH].
  constructor; [exact IH|].
  apply Forall_forall. intros t Ht.
  pose proof (sorted_head_bound a l ta t Ha Hta Ht) as Hb.
  now rewrite Ho in Hb.
Qed.

(** And never increase in the order "desc". *)
Lemma sorted_times_desc (L : list Snapshot) :
  sorted_by L -> String.eqb order "desc" = true ->
  StronglySorted (fun x y => y <= x) (times L).
Proof.
  intros HL Ho. induction HL as [|a l Hl IH Ha]; simpl; [constructor|].
  destruct (StartTime a) as [ta|] eqn:Hta; [|exact IH].
  constructor; [exact IH|].
  apply Forall_forall. intros t Ht.
  pose proof (sorted_head_bound a l ta t Ha Hta Ht) as Hb.
  now rewrite Ho in Hb.
Qed.

End SortedInventory.

(** ** The ordering policy of part_000, run by insertion sort *)

Section Part000Ordering.
Variable order : string.

Lemma part000_less_timed (a b : Snapshot) (ta tb : Z) :
  StartTime a = Some ta -> StartTime b = Some tb ->
  Part000.less order a b = pure (Services.less order) a b.
Proof.
  intros Ha Hb. unfold Part000.less, Services.less, pure.
  rewrite Ha, Hb. now destruct (String.eqb order "desc").
Qed.

Lemma part000_less_untimed (a b : Snapshot) :
  StartTime a = None \/ StartTime b = None ->
  Part000.less order a b = Panic NilDereference.
Proof.
  unfold Part000.less.
  intros [H | H]; rewrite H; destruct (String.eqb order "desc"); simpl;
    try reflexivity; now destruct (StartTime a).
Qed.

(** On records that all have a timestamp the comparator never panics and
    the insertion proceeds as in services/snapshots.go. *)
Lemma part000_insert_timed (x : Snapshot) (r : list Snapshot) :
  has_time x = true -> Forall (fun s => has_time s = true) r ->
  insert_back (Part000.less order) x r =
  insert_back (pure (Services.less order)) x r.
Proof.
  unfold has_time. intros Hx. destruct (StartTime x) as [tx|] eqn:Htx;
    [clear Hx | discriminate].
  induction 1 as [|p rest Hp _ IH]; simpl; [reflexivity|].
  destruct (StartTime p) as [tp|] eqn:Htp; [|discriminate].
  rewrite (part000_less_timed x p tx tp Htx Htp).
  now rewrite IH.
Qed.

Lemma part000_loop_timed (todo r : list Snapshot) :
  Forall (fun s => has_time s = true) r ->
  Forall (fun s => has_time s = true) todo ->
  insertion_loop (Part000.less order) r todo =
  insertion_loop (pure (Services.less order)) r todo.
Proof.
  revert r. induction todo as [|x rest IH]; intros r Hr Htodo; simpl;
    [reflexivity|].
  inversion Htodo as [|? ? Hx Hrest]; subst.
  rewrite (part000_insert_timed x r Hx Hr).
  destruct (insert_back_pure (Services.less order) x r)
    as (r' & -> & Hperm & _). simpl.
  apply IH; [|exact Hrest].
  apply (Permutation_Forall Hperm). now constructor.
Qed.

(** X8. On a slice short enough for [sort.Slice] to run insertion sort (at
    most [maxInsertion] records), when every record has a timestamp,
    part_000 sorts like services/snapshots.go. *)
Lemma part000_sort_timed (l : list Snapshot) :
  (List.length l <= maxInsertion)%nat ->
  Forall (fun s => has_time s = true) l ->
  @Part000.sortByCreatedTime insertionSort l order =
  @Services.sortByCreatedTime insertionSort l order.
Proof.
  intros _ Hl. unfold Part000.sortByCreatedTime, Services.sortByCreatedTime.
  unfold sort_Slice, insertionSort. now apply part000_loop_timed.
Qed.

Lemma part000_insert_panics (x : Snapshot) (p : Snapshot) (rest : list Snapshot) :
  StartTime x = None \/ StartTime p = None ->
  insert_back (Part000.less order) x (p :: rest) = Panic NilDereference.
Proof.
  intros H. simpl. now rewrite (part000_less_untimed x p H).
Qed.

(** The insertion loop panics once the prefix is a single record without a
    timestamp and a record is left to insert, or the prefix has only
    timestamps and a record without one is left. *)
Lemma part000_loop_panics (todo r : list Snapshot) :
  r <> [] ->
  (exists p rest, r = p :: rest /\ StartTime p = None /\ todo <> []) \/
  (Forall (fun s => has_time s = true) r /\
   Exists (fun s => StartTime s = None) todo) ->
  insertion_loop (Part000.less order) r todo = Panic NilDereference.
Proof.
  revert r. induction todo as [|x t IH]; intros r Hr H.
  - destruct H as [(p & rest & _ & _ & Hne) | [_ Hex]];
      [congruence | inversion Hex].
  - simpl. destruct H as [(p & rest & -> & Hp & _) | [Hall Hex]].
    + rewrite part000_insert_panics by now right. reflexivity.
    + destruct r as [|p rest]; [congruence|].
      destruct (StartTime x) as [tx|] eqn:Hx.
      * assert (has_time x = true) as Hxt by (unfold has_time; now rewrite Hx).
        rewrite (part000_insert_timed x (p :: rest) Hxt Hall).
        destruct (insert_back_pure (Services.less order) x (p :: rest))
          as (r' & -> & Hperm & _). simpl.
        apply IH.
        -- intros ->. apply Permutation_sym, Permutation_nil in Hperm.
           discriminate.
        -- right. split.
           ++ apply (Permutation_Forall Hperm). now constructor.
           ++ inversion Hex as [? ? Hhead | ? ? Htail]; subst;
                [congruence | exact Htail].
      * rewrite part000_insert_panics by now left. reflexivity.
Qed.

(** X9. On a slice short enough for [sort.Slice] to run insertion sort (at
    most [maxInsertion] records), the sort of part_000 panics on every
    inventory of two or more records one of which has no timestamp. *)
Lemma part000_sort_panics (l : list Snapshot) :
  (2 <= List.length l <= maxInsertion)%nat ->
  Exists (fun s => StartTime s = None) l ->
  @Part000.sortByCreatedTime insertionSort l order = Panic NilDereference.
Proof.
  intros [Hlen _] Hex. unfold Part000.sortByCreatedTime, sort_Slice, insertionSort.
  destruct l as [|x0 [|x1 t]]; simpl in Hlen; try lia.
  change (insertion_loop (Part000.less order) [] (x0 :: x1 :: t))
    with (insertion_loop (Part000.less order) [x0] (x1 :: t)).
  apply part000_loop_panics; [discriminate|].
  destruct (StartTime x0) as [t0|] eqn:H0.
  - right. split.
    + constructor; [unfold has_time; now rewrite H0 | constructor].
    + inversion Hex as [? ? Hhead | ? ? Htail]; subst;
        [congruence | exact Htail].
  - left. exists x0, []. repeat split; auto. discriminate.
Qed.

End Part000Ordering.

(** ** The two directions of the ordering policy *)

(** C3, on the inventory of scenario B (one record with a timestamp, one
    without): the comparator of part_000 dereferences the missing
    timestamp and the sort panics in either direction, while
    services/snapshots.go returns the record without a timestamp last. *)
Theorem missing_timestamp_sort :
  @Part000.sortByCreatedTime insertionSort [S1; S4] "desc" = Panic NilDereference /\
  @Part000.sortByCreatedTime insertionSort [S4; S1] "asc" = Panic NilDereference /\
  @Services.sortByCreatedTime insertionSort [S1; S4] "desc" = Return [S1; S4] /\
  @Services.sortByCreatedTime insertionSort [S4; S1] "asc" = Return [S1; S4].
Proof. repeat split; reflexivity. Qed.

(** C8, as stated, fails: two records created at the same instant keep
    their places in both directions, so the descending order of the
    records with a timestamp is not the reversed ascending one. *)
Lemma reversal_fails_on_equal_timestamps :
  exists asc desc,
    @Services.sortByCreatedTime insertionSort [S2; S5] "asc" = Return asc /\
    @Services.sortByCreatedTime insertionSort [S2; S5] "desc" = Return desc /\
    filter has_time desc <> rev (filter has_time asc).
Proof.
  exists [S2; S5], [S2; S5]. repeat split; try reflexivity. discriminate.
Qed.

(** C8, amended.  For every record list, the two directions return
    permutations [asc] and [desc] of it such that the timestamps of [desc]
    are the timestamps of [asc] reversed; when the timestamps of the list
    are pairwise distinct, the records with a timestamp in [desc] are those
    of [asc] reversed; and in both directions the [k] records with a
    timestamp fill positions 0..k-1 and the records without one fill the
    tail positions k..n-1. *)
Theorem sort_directions_mirror {SS : SliceSort} {Spec : SliceSortSpec SS}
    (l : list Snapshot) :
  exists asc desc,
    Services.sortByCreatedTime l "asc" = Return asc /\
    Services.sortByCreatedTime l "desc" = Return desc /\
    Permutation l asc /\ Permutation l desc /\
    times desc = rev (times asc) /\
    (NoDup (times l) -> filter has_time desc = rev (filter has_time asc)) /\
    let k := List.length (times l) in
    let n := List.length l in
    map has_time asc = repeat true k ++ repeat false (n - k) /\
    map has_time desc = repeat true k ++ repeat false (n - k).
Proof.
  destruct (services_sort_returns l "asc") as (asc & HA & PA & SA).
  destruct (services_sort_returns l "desc") as (desc & HD & PD & SD).
  exists asc, desc.
  assert (times desc = rev (times asc)) as Htimes.
  { apply (sorted_perm_unique (fun x y => y <= x)).
    - intros x y Hxy Hyx. lia.
    - now apply (sorted_times_desc "desc").
    - apply (StronglySorted_rev Z.le).
      now apply (sorted_times_asc "asc").
    - rewrite <- Permutation_rev.
      rewrite <- (times_perm l desc PD). now apply times_perm. }
  repeat split; auto.
  - intros Hnd.
    apply distinct_times_fix_records.
    + apply Forall_forall. intros s Hs. now apply filter_In in Hs.
    + rewrite <- Permutation_rev.
      rewrite <- (filter_perm has_time l desc PD). now apply filter_perm.
    + now rewrite times_rev, !times_filter.
    + rewrite times_filter.
      apply (Permutation_NoDup (times_perm l desc PD) Hnd).
  - rewrite (sorted_shape "asc" asc SA).
    now rewrite <- (Permutation_length PA),
                <- (Permutation_length (times_perm l asc PA)).
  - rewrite (sorted_shape "desc" desc SD).
    now rewrite <- (Permutation_length PD),
                <- (Permutation_length (times_perm l desc PD)).
Qed.

Lemma sort_directions_mirror_witness :
  exists asc desc,
    @Services.sortByCreatedTime insertionSort [S1; S4; S2; S3] "asc" = Return asc /\
    @Services.sortByCreatedTime insertionSort [S1; S4; S2; S3] "desc" = Return desc /\
    Permutation [S1; S4; S2; S3] asc /\ Permutation [S1; S4; S2; S3] desc /\
    times desc = rev (times asc) /\
    (NoDup (times [S1; S4; S2; S3]) ->
     filter has_time desc = rev (filter has_time asc)) /\
    map has_time asc = [true; true; true; false] /\
    map has_time desc = [true; true; true; false].
Proof.
  exact (@sort_directions_mirror insertionSort insertionSort_spec
           [S1; S4; S2; S3]).
Defined.

(** ** The orchestrator *)

Section Orchestrator.
Context {SS : SliceSort}.
Variables (client : Client) (tagKey tagValue : string).
Variables (deleteCount keepCount : option Z) (sortBy : string).

Let fetch := DescribeSnapshots client (String.append "tag:" tagKey) [tagValue].

(** An empty inventory ends the run of services/snapshots.go normally. *)
Lemma services_empty_inventory :
  fetch = (Some (mkOutput []), None) ->
  Services.CleanupSnapshots client tagKey tagValue deleteCount keepCount sortBy
  = ([Log InfoLevel "No snapshots found for given tag filter" []], Return tt).
Proof.
  unfold fetch, Services.CleanupSnapshots. intros ->. reflexivity.
Qed.

(** With an unrecognized sort key and a non-empty inventory,
    services/snapshots.go logs one error and returns to its caller: nothing
    is sorted, selected or deleted, and the call ends like a successful
    one. *)
Lemma services_unknown_sort_key (inventory : list Snapshot) :
  fetch = (Some (mkOutput inventory), None) ->
  inventory <> [] ->
  sortBy <> "created_time_asc" -> sortBy <> "created_time_desc" ->
  Services.CleanupSnapshots client tagKey tagValue deleteCount keepCount sortBy
  = ([Log ErrorLevel "Not support that sortBy!" []], Return tt).
Proof.
  unfold fetch, Services.CleanupSnapshots. intros -> Hinv Hasc Hdesc.
  apply String.eqb_neq in Hasc, Hdesc. apply len_pos in Hinv.
  simpl. destruct (Z.eqb_spec (len inventory) 0) as [E|_]; [lia|].
  rewrite Hasc, Hdesc. reflexivity.
Qed.

(** In the same situation part_000 logs the error and leaves the process
    with status 1. *)
Lemma part000_unknown_sort_key (inventory : list Snapshot) :
  fetch = (Some (mkOutput inventory), None) ->
  inventory <> [] ->
  sortBy <> "created_time_asc" -> sortBy <> "created_time_desc" ->
  Part000.CleanupSnapshots client tagKey tagValue deleteCount keepCount sortBy
  = ([Log ErrorLevel "Not support that sortBy!" []], Exit 1).
Proof.
  unfold fetch, Part000.CleanupSnapshots. intros -> Hinv Hasc Hdesc.
  apply String.eqb_neq in Hasc, Hdesc. apply len_pos in Hinv.
  simpl. destruct (Z.eqb_spec (len inventory) 0) as [E|_]; [lia|].
  rewrite Hasc, Hdesc. reflexivity.
Qed.

End Orchestrator.

(** C6, on an inventory of two records with the sort key "created_time":
    services/snapshots.go logs the error and returns, which fixes no exit
    status and is how the run over an empty inventory ends as well;
    part_000 logs the error and exits with status 1.  Neither calls the
    deletion executor. *)
Theorem unknown_sort_key_run :
  let services :=
    @Services.CleanupSnapshots insertionSort (stock [S1; S2]) "env" "dev"
      (Some 1) None "created_time" in
  let nothing_found :=
    @Services.CleanupSnapshots insertionSort (stock []) "env" "dev"
      (Some 1) None "created_time_asc" in
  let part000 :=
    @Part000.CleanupSnapshots insertionSort (stock [S1; S2]) "env" "dev"
      (Some 1) None "created_time" in
  services = ([Log ErrorLevel "Not support that sortBy!" []], Return tt) /\
  exit_status (outcome services) = None /\
  outcome services = outcome nothing_found /\
  deletions (trace services) = [] /\
  part000 = ([Log ErrorLevel "Not support that sortBy!" []], Exit 1) /\
  exit_status (outcome part000) = Some 1.
Proof. cbv zeta. repeat split; reflexivity. Qed.

(** C7. When [DescribeSnapshots] fails, which the SDK reports as a nil
    output together with the error, both variants log the error and then
    panic on [out.Snapshots]: the run ends there with a non-zero status,
    whatever the sort function, the counts and the sort key, and the
    deletion executor is not called. *)
Theorem fetch_error_is_fatal {SS : SliceSort} (client : Client)
    (tagKey tagValue : string) (deleteCount keepCount : option Z)
    (sortBy e : string) :
  DescribeSnapshots client (String.append "tag:" tagKey) [tagValue]
  = (None, Some e) ->
  let failed : Go unit :=
    ([Log ErrorLevel "Error in cleanupSnapshots: " [ArgErr e]],
     Panic NilDereference) in
  Services.CleanupSnapshots client tagKey tagValue deleteCount keepCount sortBy
  = failed /\
  Part000.CleanupSnapshots client tagKey tagValue deleteCount keepCount sortBy
  = failed /\
  deletions (trace failed) = [] /\
  exit_status (outcome failed) = Some 2.
Proof.
  intros Hfetch. cbv zeta.
  unfold Services.CleanupSnapshots, Part000.CleanupSnapshots.
  rewrite Hfetch. repeat split; reflexivity.
Qed.

Lemma fetch_error_is_fatal_witness :
  DescribeSnapshots unreachable (String.append "tag:" "env") ["dev"]
  = (None, Some "RequestError: send request failed") /\
  @Services.CleanupSnapshots insertionSort unreachable "env" "dev"
    (Some 1) None "created_time_asc"
  = ([Log ErrorLevel "Error in cleanupSnapshots: "
        [ArgErr "RequestError: send request failed"]],
     Panic NilDereference).
Proof.
  split; [reflexivity|].
  exact (proj1 (@fetch_error_is_fatal insertionSort unreachable "env" "dev"
                  (Some 1) None "created_time_asc"
                  "RequestError: send request failed" eq_refl)).
Defined.

(** ** The scenarios of the specification, run on services/snapshots.go *)

(** Scenario A: keep the first record of the ascending order. *)
Example scenario_A :
  @Services.sortByCreatedTime insertionSort [S1; S2; S3] "asc"
  = Return [S2; S3; S1] /\
  Services.getToDeleteSnapshots [S2; S3; S1] None (Some 1) = ret [S3; S1] /\
  deletions (trace (@Services.CleanupSnapshots insertionSort
                      (stock [S1; S2; S3]) "env" "dev" None (Some 1)
                      "created_time_asc"))
  = [Some "S3"; Some "S1"].
Proof. repeat split; reflexivity. Qed.

(** Scenario B: the record without a timestamp stays last in the
    descending order, and the first record is deleted. *)
Example scenario_B :
  @Services.sortByCreatedTime insertionSort [S1; S4] "desc"
  = Return [S1; S4] /\
  Services.getToDeleteSnapshots [S1; S4] (Some 1) None = ret [S1] /\
  deletions (trace (@Services.CleanupSnapshots insertionSort
                      (stock [S1; S4]) "env" "dev" (Some 1) None
                      "created_time_desc"))
  = [Some "S1"].
Proof. repeat split; reflexivity. Qed.

(** Scenario C: an empty inventory. *)
Example scenario_C :
  @Services.CleanupSnapshots insertionSort (stock []) "env" "dev"
    (Some 1) None "created_time_asc"
  = ([Log InfoLevel "No snapshots found for given tag filter" []], Return tt).
Proof. reflexivity. Qed.

(** Scenario D: both counts set. *)
Example scenario_D :
  Services.getToDeleteSnapshots [S1; S2; S3] (Some 3) (Some 2)
  = ([Log ErrorLevel
        "Both deleteCount (%d) and keepCount (%d) are set. Only one parameter should be used."
        [ArgInt 3; ArgInt 2]], Return []).
Proof. reflexivity. Qed.

(** * Further properties of the two variants *)

(** ** Runs of the monad *)

Lemma deletions_app (t t' : list Event) :
  deletions (t ++ t') = deletions t ++ deletions t'.
Proof.
  induction t as [|e t IH]; simpl; [reflexivity|].
  destruct e; simpl; now rewrite IH.
Qed.

(** A computation none of whose continuations calls the deletion executor
    calls it only in its first part. *)
Lemma bind_deletions {A B : Type} (m : Go A) (k : A -> Go B) :
  (forall a, deletions (trace (k a)) = []) ->
  deletions (trace (bind m k)) = deletions (trace m).
Proof.
  intros Hk. destruct m as [t [a| |]]; simpl; try reflexivity.
  specialize (Hk a). destruct (k a) as [t' r]. simpl in *.
  now rewrite deletions_app, Hk, app_nil_r.
Qed.

Lemma for_range_quiet {A : Type} (body : A -> Go unit) (l : list A) :
  (forall x, deletions (trace (body x)) = []) ->
  deletions (trace (for_range body l)) = [].
Proof.
  intros Hbody. induction l as [|x l IH]; [reflexivity|].
  simpl. rewrite bind_deletions; auto.
Qed.

(** ** Listing the records *)

Lemma services_listing_run (l : list Snapshot) (message : string) :
  Services.printSnapShotsList l message
  = (map (listing_entry message) l, Return tt).
Proof.
  unfold Services.printSnapShotsList.
  induction l as [|s l IH]; [reflexivity|].
  simpl. rewrite IH. reflexivity.
Qed.

Lemma has_time_Some (s : Snapshot) (t : Z) :
  StartTime s = Some t -> has_time s = true.
Proof. unfold has_time. now intros ->. Qed.

Lemma has_time_None (s : Snapshot) :
  StartTime s = None -> has_time s = false.
Proof. unfold has_time. now intros ->. Qed.

Lemma part000_listing_run (l : list Snapshot) (message : string) :
  Part000.printSnapShotsList l message
  = (map (listing_entry message) (timed_prefix l),
     if forallb has_time l then Return tt else Panic NilDereference).
Proof.
  unfold Part000.printSnapShotsList.
  induction l as [|s l IH]; [reflexivity|].
  cbn [for_range timed_prefix forallb].
  destruct (StartTime s) as [t|] eqn:Ht.
  - rewrite (has_time_Some s t Ht). rewrite IH.
    cbn [map]. unfold listing_entry at 2. rewrite Ht.
    now destruct (forallb has_time l).
  - rewrite (has_time_None s Ht). reflexivity.
Qed.

(** X10 (listing).  [printSnapShotsList] of services/snapshots.go writes one
    info entry per record, in order, with "-" for a missing timestamp, and
    returns.  The one of part_000 writes the same entries for the records
    in front of the first one without a timestamp and panics at that
    record; it returns exactly when every record has a timestamp, and then
    the two listings are the same. *)
Theorem listing_of_records (l : list Snapshot) (message : string) :
  Services.printSnapShotsList l message
  = (map (listing_entry message) l, Return tt) /\
  trace (Part000.printSnapShotsList l message)
  = map (listing_entry message) (timed_prefix l) /\
  (Forall (fun s => StartTime s <> None) l ->
   Part000.printSnapShotsList l message
   = Services.printSnapShotsList l message) /\
  (Exists (fun s => StartTime s = None) l ->
   outcome (Part000.printSnapShotsList l message) = Panic NilDereference).
Proof.
  rewrite services_listing_run, part000_listing_run.
  split; [reflexivity|]. split; [reflexivity|]. split.
  - intros Hall. induction Hall as [|s l Hs _ IH]; [reflexivity|].
    cbn [timed_prefix forallb map].
    destruct (StartTime s) as [t|] eqn:Ht; [|congruence].
    rewrite (has_time_Some s t Ht). cbn.
    injection IH as IH1 IH2. now rewrite IH1, IH2.
  - intros Hex.
    induction Hex as [s l Hs | s l _ IH]; cbn [forallb outcome snd].
    + now rewrite (has_time_None s Hs).
    + destruct (has_time s); [exact IH | reflexivity].
Qed.

(** ** More on the retention resolver *)

(** The resolver of services/snapshots.go only logs. *)
Lemma services_resolver_quiet (l : list Snapshot) (d k : option Z) :
  deletions (trace (Services.getToDeleteSnapshots l d k)) = [].
Proof.
  pose proof (len_nonneg l).
  destruct d as [d|], k as [k|]; run_resolver.
Qed.

Lemma services_selection_slice (l r : list Snapshot) (d k : option Z) :
  outcome (Services.getToDeleteSnapshots l d k) = Return r -> SliceOf r l.
Proof.
  destruct l as [|s l].
  { intros H. injection H as <-. auto with slices. }
  assert (s :: l <> []) as Hl by discriminate.
  destruct d as [d|], k as [k|].
  - rewrite (services_both_set (s :: l) d k Hl).
    intros H. injection H as <-. auto with slices.
  - rewrite services_delete_count.
    intros H. injection H as <-. destruct (d <=? 0); auto with slices.
  - destruct (Z.ltb_spec k 0).
    + rewrite services_keep_negative by assumption.
      intros H'. injection H' as <-. auto with slices.
    + rewrite services_keep_count by assumption.
      intros H'. injection H' as <-. auto with slices.
  - intros H. injection H as <-. auto with slices.
Qed.

(** Under a directive that selects nothing the delete-set is empty. *)
Lemma services_selects_nothing (l : list Snapshot) (d k : option Z) :
  selects_nothing (len l) d k ->
  outcome (Services.getToDeleteSnapshots l d k) = Return [].
Proof.
  intros H. pose proof (len_nonneg l).
  destruct d as [d|], k as [k|]; simpl in H; run_resolver;
    try (now rewrite (len_zero_nil l) by lia);
    try (destruct H; lia).
Qed.

(** X2 (reporting).  The resolver of services/snapshots.go logs exactly when
    the list is not empty and the directive is invalid (both counts set,
    or a negative KeepCount alone); it then logs one error-level entry and
    selects nothing.  On an empty list an invalid directive is not
    reported. *)
Theorem services_resolver_reports (l : list Snapshot) (d k : option Z) :
  let run := Services.getToDeleteSnapshots l d k in
  (trace run <> [] <-> l <> [] /\ invalid_directive d k) /\
  (trace run <> [] ->
   outcome run = Return [] /\
   exists format args, trace run = [Log ErrorLevel format args]).
Proof.
  cbv zeta. destruct l as [|s l].
  { change (Services.getToDeleteSnapshots [] d k) with (@ret (list Snapshot) []).
    simpl. split; [split|]; intros H; solve [tauto | now destruct H]. }
  assert (s :: l <> []) as Hl by discriminate.
  destruct d as [d|], k as [k|]; simpl invalid_directive.
  - rewrite (services_both_set (s :: l) d k Hl). simpl. split.
    + split; [intros _; now split | discriminate].
    + intros _. split; [reflexivity | eauto].
  - rewrite services_delete_count. simpl. split.
    + split; [congruence | tauto].
    + congruence.
  - destruct (Z.ltb_spec k 0).
    + rewrite services_keep_negative by assumption. simpl. split.
      * split; [intros _; now split | discriminate].
      * intros _. split; [reflexivity | eauto].
    + rewrite services_keep_count by assumption. simpl. split.
      * split; [congruence | intros [_ ?]; lia].
      * congruence.
  - pose proof (len_cons_pos s l). split.
    + split; [run_resolver | tauto].
    + run_resolver.
Qed.

(** X3 (part_000 on a single count).  With DeleteCount alone part_000
    selects the first DeleteCount records when the count is not negative
    and the whole list when it is negative.  With KeepCount alone it
    selects the records after the first KeepCount when the count is not
    negative, and panics on the slice expression when the count is
    negative and the list is not empty. *)
Theorem part000_single_count (l : list Snapshot) (c : Z) :
  (0 <= c ->
   Part000.getToDeleteSnapshots l (Some c) None = ret (firstn (Z.to_nat c) l) /\
   Part000.getToDeleteSnapshots l None (Some c) = ret (skipn (Z.to_nat c) l)) /\
  (c < 0 ->
   Part000.getToDeleteSnapshots l (Some c) None = ret l /\
   (l <> [] ->
    Part000.getToDeleteSnapshots l None (Some c) = ([], Panic SliceBounds)) /\
   (l = [] -> Part000.getToDeleteSnapshots l None (Some c) = ret [])).
Proof.
  split.
  - intros Hc. rewrite part000_delete_count, part000_keep_count by assumption.
    destruct (Z.ltb_spec c 0); [lia | now split].
  - intros Hc. rewrite part000_delete_count.
    destruct (Z.ltb_spec c 0); [|lia].
    split; [reflexivity|]. split.
    + intros Hl. now apply part000_keep_negative.
    + intros ->. reflexivity.
Qed.

(** X4 (complement).  For a count that is not negative, what DeleteCount
    selects and what KeepCount selects with the same count split the list:
    the first is the front part, the second the rest, in both variants. *)
Theorem delete_and_keep_split (l : list Snapshot) (c : Z) :
  0 <= c ->
  exists front rest,
    l = front ++ rest /\
    len front = Z.min c (len l) /\
    Services.getToDeleteSnapshots l (Some c) None = ret front /\
    Services.getToDeleteSnapshots l None (Some c) = ret rest /\
    Part000.getToDeleteSnapshots l (Some c) None = ret front /\
    Part000.getToDeleteSnapshots l None (Some c) = ret rest.
Proof.
  intros Hc. exists (firstn (Z.to_nat c) l), (skipn (Z.to_nat c) l).
  rewrite services_delete_count, part000_delete_count.
  rewrite services_keep_count, part000_keep_count by assumption.
  destruct (Z.ltb_spec c 0); [lia|].
  repeat split.
  - symmetry. apply firstn_skipn.
  - unfold len. rewrite length_firstn. lia.
  - destruct (Z.leb_spec c 0); [|reflexivity].
    assert (c = 0) as -> by lia. reflexivity.
Qed.

Lemma delete_and_keep_split_witness :
  0 <= 2 /\
  exists front rest,
    [S2; S3; S1] = front ++ rest /\
    len front = Z.min 2 (len [S2; S3; S1]) /\
    Services.getToDeleteSnapshots [S2; S3; S1] (Some 2) None = ret front /\
    Services.getToDeleteSnapshots [S2; S3; S1] None (Some 2) = ret rest /\
    Part000.getToDeleteSnapshots [S2; S3; S1] (Some 2) None = ret front /\
    Part000.getToDeleteSnapshots [S2; S3; S1] None (Some 2) = ret rest.
Proof.
  assert (0 <= 2) as H by lia.
  split; [exact H|]. exact (delete_and_keep_split [S2; S3; S1] 2 H).
Defined.

(** X5 (monotonicity).  In services/snapshots.go a larger KeepCount never
    selects more and a larger DeleteCount never selects less: for
    0 <= k1 <= k2 the selection of KeepCount k2 is a suffix of that of
    KeepCount k1, and for d1 <= d2 the selection of DeleteCount d1 is a
    prefix of that of DeleteCount d2. *)
Theorem selection_is_monotone (l : list Snapshot) (c1 c2 : Z) :
  c1 <= c2 ->
  (0 <= c1 ->
   exists r1 r2 more,
     Services.getToDeleteSnapshots l None (Some c1) = ret r1 /\
     Services.getToDeleteSnapshots l None (Some c2) = ret r2 /\
     r1 = more ++ r2) /\
  (exists r1 r2 more,
     Services.getToDeleteSnapshots l (Some c1) None = ret r1 /\
     Services.getToDeleteSnapshots l (Some c2) None = ret r2 /\
     r2 = r1 ++ more).
Proof.
  intros Hle. split.
  - intros H1.
    exists (skipn (Z.to_nat c1) l), (skipn (Z.to_nat c2) l),
           (firstn (Z.to_nat c2 - Z.to_nat c1) (skipn (Z.to_nat c1) l)).
    rewrite !services_keep_count by lia. repeat split.
    rewrite <- (firstn_skipn (Z.to_nat c2 - Z.to_nat c1)
                  (skipn (Z.to_nat c1) l)) at 1.
    f_equal. rewrite skipn_skipn. f_equal. lia.
  - rewrite !services_delete_count.
    destruct (Z.leb_spec c1 0).
    + eexists [], _, _. repeat split.
    + destruct (Z.leb_spec c2 0); [lia|].
      exists (firstn (Z.to_nat c1) l), (firstn (Z.to_nat c2) l),
             (skipn (Z.to_nat c1) (firstn (Z.to_nat c2) l)).
      repeat split.
      rewrite <- (firstn_skipn (Z.to_nat c1) (firstn (Z.to_nat c2) l)) at 1.
      f_equal. rewrite firstn_firstn. f_equal. lia.
Qed.

Lemma selection_is_monotone_witness :
  1 <= 2 /\
  exists r1 r2 more,
    Services.getToDeleteSnapshots [S2; S3; S1] (Some 1) None = ret r1 /\
    Services.getToDeleteSnapshots [S2; S3; S1] (Some 2) None = ret r2 /\
    r2 = r1 ++ more.
Proof.
  assert (1 <= 2) as H by lia.
  split; [exact H|].
  exact (proj2 (selection_is_monotone [S2; S3; S1] 1 2 H)).
Defined.

(** ** The deletion loop of services/snapshots.go *)

Section DeleteEach.
Variable client : Client.

(** One record: one call of the executor, whatever it answers. *)
Lemma services_delete_one (s : Snapshot) :
  deletions (trace (Services.deleteSnapShot s client ;;; ret tt))
  = [SnapshotId s].
Proof.
  unfold Services.deleteSnapShot.
  destruct (DeleteSnapshot client (SnapshotId s)) as [e|]; [reflexivity|].
  destruct (SnapshotId s); reflexivity.
Qed.

(** A record with an id never stops the loop. *)
Lemma services_delete_one_returns (s : Snapshot) :
  SnapshotId s <> None ->
  outcome (Services.deleteSnapShot s client ;;; ret tt) = Return tt.
Proof.
  unfold Services.deleteSnapShot. intros Hid.
  destruct (DeleteSnapshot client (SnapshotId s)) as [e|]; [reflexivity|].
  destruct (SnapshotId s); [reflexivity | congruence].
Qed.

Lemma delete_each_cons (s : Snapshot) (l : list Snapshot) :
  delete_each client (s :: l)
  = (Services.deleteSnapShot s client ;;; ret tt) ;;; delete_each client l.
Proof. reflexivity. Qed.

(** The executor is called on the selected records in order, up to the
    point where the loop stops. *)
Lemma delete_each_prefix (l : list Snapshot) :
  exists rest,
    map SnapshotId l = deletions (trace (delete_each client l)) ++ rest.
Proof.
  induction l as [|s l [rest IH]]; [now exists []|].
  rewrite delete_each_cons.
  pose proof (services_delete_one s) as H1.
  destruct (Services.deleteSnapShot s client ;;; ret tt) as [t [[]| |]];
    simpl in H1 |- *.
  - destruct (delete_each client l) as [t' r]. simpl in *.
    exists rest. now rewrite deletions_app, H1, IH.
  - exists (map SnapshotId l). now rewrite H1.
  - exists (map SnapshotId l). now rewrite H1.
Qed.

(** When every selected record has an id, the loop calls the executor once
    per record, in order, and returns, whether the calls succeed or not. *)
Lemma delete_each_all (l : list Snapshot) :
  Forall (fun s => SnapshotId s <> None) l ->
  outcome (delete_each client l) = Return tt /\
  deletions (trace (delete_each client l)) = map SnapshotId l.
Proof.
  induction 1 as [|s l Hs _ [IHo IHd]]; [now split|].
  rewrite delete_each_cons.
  pose proof (services_delete_one s) as H1.
  pose proof (services_delete_one_returns s Hs) as H2.
  destruct (Services.deleteSnapShot s client ;;; ret tt) as [t o].
  simpl in H1, H2. subst o.
  destruct (delete_each client l) as [t' r]. simpl in *.
  split; [exact IHo|]. now rewrite deletions_app, H1, IHd.
Qed.

End DeleteEach.

Lemma listing_quiet (message : string) (l : list Snapshot) :
  deletions (map (listing_entry message) l) = [].
Proof. induction l as [|s l IH]; [reflexivity | exact IH]. Qed.

(** ** Runs of the orchestrator of services/snapshots.go *)

Section ServicesRun.
Context {SS : SliceSort} {Spec : SliceSortSpec SS}.
Variables (client : Client) (tagKey tagValue : string).
Variables (deleteCount keepCount : option Z).

Let fetch := DescribeSnapshots client (String.append "tag:" tagKey) [tagValue].
Let run (sortBy : string) : Go unit :=
  Services.CleanupSnapshots client tagKey tagValue deleteCount keepCount sortBy.

(** With a recognized sort key and a non-empty inventory the run is the
    sort, the selection, the listing of the selection and the deletion
    loop, one after the other. *)
Lemma services_run_recognized (inventory : list Snapshot)
    (err : option string) (order : string) :
  fetch = (Some (mkOutput inventory), err) ->
  inventory <> [] ->
  order = "asc" \/ order = "desc" ->
  exists sorted tr selected,
    Services.sortByCreatedTime inventory order = Return sorted /\
    Permutation inventory sorted /\
    Services.getToDeleteSnapshots sorted deleteCount keepCount
    = (tr, Return selected) /\
    run (String.append "created_time_" order)
    = (fetch_error_entries err ++ sort_listing order sorted ++ tr ++
       map (listing_entry "Delete Snapshot: ") selected ++
       trace (delete_each client selected),
       outcome (delete_each client selected)).
Proof.
  unfold fetch, run, Services.CleanupSnapshots. intros -> Hinv Horder.
  apply len_pos in Hinv.
  destruct (services_sort_returns inventory order)
    as (sorted & Hsort & Hperm & _).
  destruct (services_resolver_returns sorted deleteCount keepCount)
    as (selected & Hsel).
  destruct (Services.getToDeleteSnapshots sorted deleteCount keepCount)
    as [tr o] eqn:Hget.
  simpl in Hsel. subst o.
  exists sorted, tr, selected.
  split; [exact Hsort|]. split; [exact Hperm|]. split; [exact Hget|].
  fold (delete_each client).
  assert ((len inventory =? 0) = false) as Hlen by (apply Z.eqb_neq; lia).
  destruct Horder as [-> | ->]; cbn [String.append]; simpl String.eqb;
    cbv iota; destruct err as [e|]; simpl; rewrite Hlen, Hsort; simpl.
  - rewrite Hget. simpl. rewrite services_listing_run. simpl.
    unfold delete_each. destruct (for_range _ selected) as [t' r]. simpl.
    now rewrite <- ?app_assoc.
  - rewrite Hget. simpl. rewrite services_listing_run. simpl.
    unfold delete_each. destruct (for_range _ selected) as [t' r]. simpl.
    now rewrite <- ?app_assoc.
  - rewrite services_listing_run. simpl. rewrite Hget. simpl.
    rewrite services_listing_run. simpl.
    unfold delete_each. destruct (for_range _ selected) as [t' r]. simpl.
    unfold sort_listing. simpl. now rewrite <- ?app_assoc.
  - rewrite services_listing_run. simpl. rewrite Hget. simpl.
    rewrite services_listing_run. simpl.
    unfold delete_each. destruct (for_range _ selected) as [t' r]. simpl.
    unfold sort_listing. simpl. now rewrite <- ?app_assoc.
Qed.

End ServicesRun.

Section ServicesRunFacts.
Context {SS : SliceSort} {Spec : SliceSortSpec SS}.
Variables (client : Client) (tagKey tagValue : string).
Variables (deleteCount keepCount : option Z).

Let fetch := DescribeSnapshots client (String.append "tag:" tagKey) [tagValue].
Let run (sortBy : string) : Go unit :=
  Services.CleanupSnapshots client tagKey tagValue deleteCount keepCount sortBy.

(** X11 (the pipeline).  With a recognized sort key, a fetch that succeeds
    with a non-empty inventory and records that all have an id,
    services/snapshots.go sorts the inventory, selects from the sorted
    list, lists the whole selection and only then calls the deletion
    executor, once per selected record and in selection order; an executor
    that fails on some records does not stop the loop, and the run
    returns. *)
Theorem services_deletes_the_selection (inventory : list Snapshot)
    (order : string) :
  fetch = (Some (mkOutput inventory), None) ->
  inventory <> [] ->
  order = "asc" \/ order = "desc" ->
  Forall (fun s => SnapshotId s <> None) inventory ->
  exists sorted selected before after,
    Services.sortByCreatedTime inventory order = Return sorted /\
    outcome (Services.getToDeleteSnapshots sorted deleteCount keepCount)
    = Return selected /\
    outcome (run (String.append "created_time_" order)) = Return tt /\
    deletions (trace (run (String.append "created_time_" order)))
    = map SnapshotId selected /\
    trace (run (String.append "created_time_" order))
    = before ++ map (listing_entry "Delete Snapshot: ") selected ++ after /\
    deletions before = [] /\
    deletions after = map SnapshotId selected.
Proof.
  intros Hfetch Hinv Horder Hids.
  destruct (services_run_recognized client tagKey tagValue deleteCount
              keepCount inventory None order Hfetch Hinv Horder)
    as (sorted & tr & selected & Hsort & Hperm & Hget & Hrun).
  assert (Forall (fun s => SnapshotId s <> None) selected) as Hsel.
  { apply Forall_forall. intros s Hs.
    rewrite Forall_forall in Hids. apply Hids.
    apply (Permutation_in s (Permutation_sym Hperm)).
    apply (SliceOf_incl selected sorted); [|exact Hs].
    apply (services_selection_slice sorted selected deleteCount keepCount).
    now rewrite Hget. }
  destruct (delete_each_all client selected Hsel) as [Hout Hdel].
  assert (deletions (sort_listing order sorted ++ tr) = []) as Hquiet.
  { rewrite deletions_app.
    pose proof (services_resolver_quiet sorted deleteCount keepCount) as Hq.
    rewrite Hget in Hq. simpl in Hq. rewrite Hq.
    unfold sort_listing. destruct (String.eqb order "desc"); simpl;
      [now rewrite listing_quiet | reflexivity]. }
  exists sorted, selected, (sort_listing order sorted ++ tr),
         (trace (delete_each client selected)).
  fold (run (String.append "created_time_" order)) in Hrun.
  rewrite Hrun. cbn [trace outcome fst snd fetch_error_entries app].
  repeat split; auto.
  - now rewrite Hget.
  - rewrite app_assoc, deletions_app, Hquiet.
    now rewrite deletions_app, listing_quiet, Hdel.
  - now rewrite <- app_assoc.
Qed.

(** A directive that selects nothing makes a run without deletions. *)
Lemma services_run_without_selection (inventory : list Snapshot)
    (sortBy : string) :
  fetch = (Some (mkOutput inventory), None) ->
  selects_nothing (len inventory) deleteCount keepCount ->
  deletions (trace (run sortBy)) = [] /\ outcome (run sortBy) = Return tt.
Proof.
  intros Hfetch Hnone.
  destruct inventory as [|s0 inv0].
  { unfold run. now rewrite (services_empty_inventory client tagKey tagValue
                              deleteCount keepCount sortBy Hfetch). }
  assert (s0 :: inv0 <> []) as Hinv by discriminate.
  assert (forall order, order = "asc" \/ order = "desc" ->
    deletions (trace (run (String.append "created_time_" order))) = [] /\
    outcome (run (String.append "created_time_" order)) = Return tt) as known.
  { intros order Horder.
    destruct (services_run_recognized client tagKey tagValue deleteCount
                keepCount (s0 :: inv0) None order Hfetch Hinv Horder)
      as (sorted & tr & selected & Hsort & Hperm & Hget & Hrun).
    fold (run (String.append "created_time_" order)) in Hrun.
    assert (selected = []) as ->.
    { pose proof (services_selects_nothing sorted deleteCount keepCount) as H.
      unfold len in H. rewrite <- (Permutation_length Hperm) in H.
      specialize (H Hnone). rewrite Hget in H. now injection H. }
    rewrite Hrun. cbn [trace outcome fst snd fetch_error_entries app map].
    split; [|reflexivity].
    rewrite !deletions_app.
    pose proof (services_resolver_quiet sorted deleteCount keepCount) as Hq.
    rewrite Hget in Hq. simpl in Hq. rewrite Hq.
    unfold sort_listing. destruct (String.eqb order "desc");
      [now rewrite listing_quiet | reflexivity]. }
  destruct (String.eqb_spec sortBy "created_time_asc") as [-> | Hasc].
  { apply (known "asc"). now left. }
  destruct (String.eqb_spec sortBy "created_time_desc") as [-> | Hdesc].
  { apply (known "desc"). now right. }
  unfold run.
  now rewrite (services_unknown_sort_key client tagKey tagValue deleteCount
                 keepCount sortBy (s0 :: inv0) Hfetch Hinv Hasc Hdesc).
Qed.

(** X12 (the directives that delete nothing).  When the fetch succeeds and
    the directive selects nothing from an inventory of that size (no
    count, DeleteCount <= 0, KeepCount at least the size of the inventory,
    a negative KeepCount, or both counts), services/snapshots.go never
    calls the deletion executor and returns, whatever the sort key. *)
Theorem services_noop_directive (inventory : list Snapshot) (sortBy : string) :
  fetch = (Some (mkOutput inventory), None) ->
  selects_nothing (len inventory) deleteCount keepCount ->
  deletions (trace (run sortBy)) = [] /\ outcome (run sortBy) = Return tt.
Proof.
  intros Hfetch Hnone.
  destruct (services_run_without_selection inventory sortBy Hfetch Hnone)
    as [Hquiet Hreturns].
  split; [exact Hquiet | exact Hreturns].
Qed.

(** X13 (only what was fetched).  Whatever the client answers and whatever
    the counts and the sort key, every id services/snapshots.go hands to
    the deletion executor is the id of a record of the fetched inventory,
    and it makes at most as many calls as the inventory has records. *)
Theorem services_deletes_only_fetched (sortBy : string) :
  (forall id, In id (deletions (trace (run sortBy))) ->
     exists out s, fst fetch = Some out /\ In s (Snapshots out) /\
                   SnapshotId s = id) /\
  (forall out, fst fetch = Some out ->
     (List.length (deletions (trace (run sortBy)))
      <= List.length (Snapshots out))%nat) /\
  (fst fetch = None -> deletions (trace (run sortBy)) = []).
Proof.
  assert (forall t : list Event,
            deletions (fetch_error_entries (snd fetch) ++ t) = deletions t)
    as skip_err.
  { intros t. destruct (snd fetch); reflexivity. }
  destruct fetch as [out err] eqn:Hfetch. simpl fst. simpl snd in skip_err.
  destruct out as [[inventory]|].
  2:{ assert (deletions (trace (run sortBy)) = []) as ->.
      { unfold run, Services.CleanupSnapshots. fold fetch. rewrite Hfetch.
        destruct err; reflexivity. }
      repeat split; try discriminate. intros id []. }
  assert (deletions (trace (run sortBy)) = [] \/
          exists sorted selected rest,
            Permutation inventory sorted /\ SliceOf selected sorted /\
            map SnapshotId selected
            = deletions (trace (run sortBy)) ++ rest) as shape.
  { destruct inventory as [|s0 inv0].
    { left. unfold run, Services.CleanupSnapshots. fold fetch. rewrite Hfetch.
      destruct err; reflexivity. }
    assert (s0 :: inv0 <> []) as Hinv by discriminate.
    assert (forall order, order = "asc" \/ order = "desc" ->
      exists sorted selected rest,
        Permutation (s0 :: inv0) sorted /\ SliceOf selected sorted /\
        map SnapshotId selected
        = deletions (trace (run (String.append "created_time_" order)))
          ++ rest) as known.
    { intros order Horder.
      destruct (services_run_recognized client tagKey tagValue deleteCount
                  keepCount (s0 :: inv0) err order Hfetch Hinv Horder)
        as (sorted & tr & selected & Hsort & Hperm & Hget & Hrun).
      fold (run (String.append "created_time_" order)) in Hrun.
      destruct (delete_each_prefix client selected) as [rest Hrest].
      exists sorted, selected, rest.
      split; [exact Hperm|]. split.
      - apply (services_selection_slice sorted selected deleteCount keepCount).
        now rewrite Hget.
      - rewrite Hrun. cbn [trace fst]. rewrite skip_err.
        rewrite !deletions_app, listing_quiet.
        pose proof (services_resolver_quiet sorted deleteCount keepCount) as Hq.
        rewrite Hget in Hq. simpl in Hq. rewrite Hq.
        assert (deletions (sort_listing order sorted) = []) as ->.
        { unfold sort_listing. destruct (String.eqb order "desc");
            [apply listing_quiet | reflexivity]. }
        exact Hrest. }
    destruct (String.eqb_spec sortBy "created_time_asc") as [-> | Hasc].
    { right. apply (known "asc"). now left. }
    destruct (String.eqb_spec sortBy "created_time_desc") as [-> | Hdesc].
    { right. apply (known "desc"). now right. }
    left. unfold run, Services.CleanupSnapshots. fold fetch. rewrite Hfetch.
    apply String.eqb_neq in Hasc, Hdesc.
    assert ((len (s0 :: inv0) =? 0) = false) as Hlen
      by (apply Z.eqb_neq; pose proof (len_cons_pos s0 inv0); lia).
    destruct err; simpl; rewrite ?Hlen, Hasc, Hdesc; reflexivity. }
  split; [|split; [|discriminate]].
  - intros id Hid. exists (mkOutput inventory).
    destruct shape as [E | (sorted & selected & rest & Hperm & Hslice & Hmap)].
    { rewrite E in Hid. destruct Hid. }
    assert (In id (map SnapshotId selected)) as Hin
      by (rewrite Hmap; apply in_or_app; now left).
    apply in_map_iff in Hin. destruct Hin as (s & Hs & Hin).
    exists s. repeat split; auto. simpl.
    apply (Permutation_in s (Permutation_sym Hperm)).
    now apply (SliceOf_incl selected sorted).
  - intros out Hout. injection Hout as <-. simpl.
    destruct shape as [-> | (sorted & selected & rest & Hperm & Hslice & Hmap)].
    { simpl. lia. }
    apply (f_equal (@List.length _)) in Hmap.
    rewrite length_map, length_app in Hmap.
    pose proof (SliceOf_length selected sorted Hslice).
    rewrite (Permutation_length Hperm). lia.
Qed.

End ServicesRunFacts.

(** ** Runs of the orchestrator of part_000 *)

Lemma part000_resolver_quiet (l : list Snapshot) (d k : option Z) :
  deletions (trace (Part000.getToDeleteSnapshots l d k)) = [].
Proof.
  pose proof (len_nonneg l).
  destruct d as [d|], k as [k|]; run_resolver;
    destruct ((len l <=? d) || (d <? 0)); reflexivity.
Qed.

Lemma part000_listing_quiet (l : list Snapshot) (message : string) :
  deletions (trace (Part000.printSnapShotsList l message)) = [].
Proof. rewrite part000_listing_run. apply listing_quiet. Qed.

(** X14 (a dry run).  part_000 never calls the deletion executor: its
    [deleteSnapShot] returns without a call, so a run only fetches, sorts,
    selects and logs, whatever the client, the counts and the sort key. *)
Theorem part000_never_deletes {SS : SliceSort} (client : Client)
    (tagKey tagValue : string) (deleteCount keepCount : option Z)
    (sortBy : string) :
  deletions (trace (Part000.CleanupSnapshots client tagKey tagValue
                      deleteCount keepCount sortBy)) = [].
Proof.
  unfold Part000.CleanupSnapshots.
  destruct (DescribeSnapshots client (String.append "tag:" tagKey) [tagValue])
    as [out err].
  rewrite bind_deletions; [destruct err; reflexivity|]. intros _.
  rewrite bind_deletions; [destruct out; reflexivity|]. intros o.
  destruct (len (Snapshots o) =? 0); [reflexivity|].
  rewrite bind_deletions.
  - destruct (String.eqb sortBy "created_time_asc"); [reflexivity|].
    destruct (String.eqb sortBy "created_time_desc"); [|reflexivity].
    rewrite bind_deletions; [reflexivity|]. intros r.
    rewrite bind_deletions; [apply part000_listing_quiet | reflexivity].
  - intros sorted.
    rewrite bind_deletions; [reflexivity|]. intros _.
    rewrite bind_deletions; [apply part000_resolver_quiet|]. intros selected.
    rewrite bind_deletions; [apply part000_listing_quiet|]. intros _.
    apply for_range_quiet. reflexivity.
Qed.

(** ** An empty inventory *)

(** X15 (nothing found).  When the fetch succeeds with no record, both
    variants log "No snapshots found for given tag filter" once and
    return; the counts and the sort key are not looked at, so an invalid
    directive or an unrecognized sort key goes unreported. *)
Theorem empty_inventory_ends_run {SS : SliceSort} (client : Client)
    (tagKey tagValue : string) (deleteCount keepCount : option Z)
    (sortBy : string) :
  DescribeSnapshots client (String.append "tag:" tagKey) [tagValue]
  = (Some (mkOutput []), None) ->
  let nothing_found : Go unit :=
    ([Log InfoLevel "No snapshots found for given tag filter" []],
     Return tt) in
  Services.CleanupSnapshots client tagKey tagValue deleteCount keepCount sortBy
  = nothing_found /\
  Part000.CleanupSnapshots client tagKey tagValue deleteCount keepCount sortBy
  = nothing_found.
Proof.
  intros Hfetch. cbv zeta.
  unfold Services.CleanupSnapshots, Part000.CleanupSnapshots.
  rewrite Hfetch. split; reflexivity.
Qed.

Lemma empty_inventory_ends_run_witness :
  DescribeSnapshots (stock []) (String.append "tag:" "env") ["dev"]
  = (Some (mkOutput []), None) /\
  @Services.CleanupSnapshots insertionSort (stock []) "env" "dev"
    (Some 1) (Some 2) "newest_first"
  = ([Log InfoLevel "No snapshots found for given tag filter" []], Return tt).
Proof.
  split; [reflexivity|].
  exact (proj1 (@empty_inventory_ends_run insertionSort (stock []) "env" "dev"
                  (Some 1) (Some 2) "newest_first" eq_refl)).
Defined.

(** ** Witnesses of the run properties *)

Lemma services_deletes_the_selection_witness :
  exists sorted selected before after,
    @Services.sortByCreatedTime insertionSort [S1; S2; S3] "asc"
    = Return sorted /\
    outcome (Services.getToDeleteSnapshots sorted None (Some 1))
    = Return selected /\
    outcome (@Services.CleanupSnapshots insertionSort (stock [S1; S2; S3])
               "env" "dev" None (Some 1) "created_time_asc") = Return tt /\
    deletions (trace (@Services.CleanupSnapshots insertionSort
                        (stock [S1; S2; S3]) "env" "dev" None (Some 1)
                        "created_time_asc"))
    = map SnapshotId selected /\
    trace (@Services.CleanupSnapshots insertionSort (stock [S1; S2; S3])
             "env" "dev" None (Some 1) "created_time_asc")
    = before ++ map (listing_entry "Delete Snapshot: ") selected ++ after /\
    deletions before = [] /\
    deletions after = map SnapshotId selected.
Proof.
  apply (@services_deletes_the_selection insertionSort insertionSort_spec
           (stock [S1; S2; S3]) "env" "dev" None (Some 1) [S1; S2; S3] "asc").
  - reflexivity.
  - discriminate.
  - now left.
  - repeat constructor; discriminate.
Defined.

Lemma services_noop_directive_witness :
  deletions (trace (@Services.CleanupSnapshots insertionSort
                      (stock [S1; S2; S3]) "env" "dev" None (Some 3)
                      "created_time_desc")) = [] /\
  outcome (@Services.CleanupSnapshots insertionSort (stock [S1; S2; S3])
             "env" "dev" None (Some 3) "created_time_desc") = Return tt.
Proof.
  apply (@services_noop_directive insertionSort insertionSort_spec
           (stock [S1; S2; S3]) "env" "dev" None (Some 3) [S1; S2; S3]
           "created_time_desc").
  - reflexivity.
  - simpl. right. unfold len. simpl. lia.
Defined.

Lemma services_deletes_only_fetched_witness :
  In (Some "S1")
    (deletions (trace (@Services.CleanupSnapshots insertionSort
                         (stock [S1; S2; S3]) "env" "dev" None (Some 1)
                         "created_time_asc"))) /\
  exists out s,
    fst (DescribeSnapshots (stock [S1; S2; S3])
           (String.append "tag:" "env") ["dev"]) = Some out /\
    In s (Snapshots out) /\ SnapshotId s = Some "S1".
Proof.
  assert (In (Some "S1")
            (deletions (trace (@Services.CleanupSnapshots insertionSort
                                 (stock [S1; S2; S3]) "env" "dev" None
                                 (Some 1) "created_time_asc")))) as H
    by (simpl; right; left; reflexivity).
  split; [exact H|].
  exact (proj1 (@services_deletes_only_fetched insertionSort insertionSort_spec
                  (stock [S1; S2; S3]) "env" "dev" None (Some 1)
                  "created_time_asc") (Some "S1") H).
Defined.

(** X16 (an unrecognized sort key).  When the fetch succeeds with a non-empty
    inventory and the sort key is neither "created_time_asc" nor
    "created_time_desc", both variants log "Not support that sortBy!" at
    error level and do nothing else: services/snapshots.go returns to its
    caller, part_000 leaves the process with status 1.  Nothing is sorted,
    selected or deleted. *)
Theorem unknown_sort_key_stops_run {SS : SliceSort} (client : Client)
    (tagKey tagValue : string) (deleteCount keepCount : option Z)
    (sortBy : string) (inventory : list Snapshot) :
  DescribeSnapshots client (String.append "tag:" tagKey) [tagValue]
  = (Some (mkOutput inventory), None) ->
  inventory <> [] ->
  sortBy <> "created_time_asc" -> sortBy <> "created_time_desc" ->
  Services.CleanupSnapshots client tagKey tagValue deleteCount keepCount sortBy
  = ([Log ErrorLevel "Not support that sortBy!" []], Return tt) /\
  Part000.CleanupSnapshots client tagKey tagValue deleteCount keepCount sortBy
  = ([Log ErrorLevel "Not support that sortBy!" []], Exit 1).
Proof.
  intros Hfetch Hinv Hasc Hdesc. split.
  - now apply (services_unknown_sort_key client tagKey tagValue deleteCount
                 keepCount sortBy inventory).
  - now apply (part000_unknown_sort_key client tagKey tagValue deleteCount
                 keepCount sortBy inventory).
Qed.

Lemma unknown_sort_key_stops_run_witness :
  @Services.CleanupSnapshots insertionSort (stock [S1; S2]) "env" "dev"
    (Some 1) None "CREATED_TIME_ASC"
  = ([Log ErrorLevel "Not support that sortBy!" []], Return tt) /\
  @Part000.CleanupSnapshots insertionSort (stock [S1; S2]) "env" "dev"
    (Some 1) None "CREATED_TIME_ASC"
  = ([Log ErrorLevel "Not support that sortBy!" []], Exit 1).
Proof.
  apply (@unknown_sort_key_stops_run insertionSort (stock [S1; S2]) "env" "dev"
           (Some 1) None "CREATED_TIME_ASC" [S1; S2]);
    [reflexivity | discriminate | discriminate | discriminate].
Defined.

(** ** The rotating writer *)

Lemma string_length_append (s t : string) :
  String.length (String.append s t) = (String.length s + String.length t)%nat.
Proof. induction s as [|c s IH]; simpl; [reflexivity | now rewrite IH]. Qed.

(** Two names of different lengths differ. *)
Ltac names_differ :=
  let E := fresh "E" in
  intros E; apply (f_equal String.length) in E;
  unfold Writer.rotatedFilename in E;
  rewrite ?string_length_append in E; simpl in E; lia.

Section RotatingWriter.
Variable gzip : string -> string.
Variable base : string.


(** An attempt on a missing log file fails at once and touches nothing. *)
Lemma try_missing (newFilename : string) (fs : Writer.FS) :
  fs base = None ->
  Writer.tryCompressAndRename gzip base newFilename fs = (fs, Some (Writer.no_such_file "open" base)).
Proof.
  intros H. unfold Writer.tryCompressAndRename, Writer.os_Open.
  now rewrite H.
Qed.

(** An attempt on a log file that exists, step by step. *)
Lemma try_present (timestamp data : string) (fs : Writer.FS) :
  fs base = Some data ->
  let new := Writer.rotatedFilename base timestamp in
  let tmp := String.append new ".tmp" in
  let gz := String.append tmp ".gz" in
  Writer.tryCompressAndRename gzip base new fs
  = (Writer.put
       (Writer.remove
          (Writer.put (Writer.put
             (Writer.put (Writer.remove (Writer.put fs tmp "") base) tmp data)
             gz "") gz (gzip data))
          tmp)
       new data, None).
Proof.
  intros H. cbv zeta.
  unfold Writer.tryCompressAndRename, Writer.os_Open. rewrite H.
  unfold Writer.os_Rename, Writer.os_Create, Writer.compressFile,
    Writer.os_Open.
  assert (String.eqb base (String.append (Writer.rotatedFilename base timestamp) ".tmp") = false)
    as E1 by (apply String.eqb_neq; names_differ).
  assert (String.eqb (String.append (Writer.rotatedFilename base timestamp) ".tmp")
            (String.append (String.append (Writer.rotatedFilename base timestamp) ".tmp") ".gz")
          = false)
    as E2 by (apply String.eqb_neq; names_differ).
  cbv beta zeta delta [Writer.put Writer.remove Writer.os_Create
                       Writer.os_Rename Writer.compressFile Writer.os_Open].
  repeat (first [rewrite E1 | rewrite E2 | rewrite String.eqb_refl | rewrite H];
          cbv beta iota zeta).
  reflexivity.
Qed.

(** On a missing log file every iteration of the loop fails alike. *)
Lemma retry_missing (newFilename : string) (fs : Writer.FS) (n : nat)
    (err : option string) :
  fs base = None ->
  Writer.retry gzip base newFilename n err fs
  = (fs, List.concat (repeat [Writer.Attempt; Writer.Sleep 1] n),
     match n with
     | O => err
     | S _ => Some (Writer.no_such_file "open" base)
     end).
Proof.
  intros H. revert err. induction n as [|n IH]; intros err; [reflexivity|].
  cbn [Writer.retry]. rewrite (try_missing newFilename fs H).
  rewrite IH. now destruct n.
Qed.

(** X17 (rotation).  When the log file exists, one attempt of
    [tryCompressAndRename] on the rotated name <base>.<timestamp>.gz
    succeeds and leaves the log file gone, the rotated name holding the
    bytes of the log as they were (not compressed), the gzip stream of
    those bytes under <base>.<timestamp>.gz.tmp.gz, no file under
    <base>.<timestamp>.gz.tmp, and every other file as it was. *)
Theorem rotation_keeps_raw_log (timestamp data : string) (fs : Writer.FS) :
  fs base = Some data ->
  let new := Writer.rotatedFilename base timestamp in
  let tmp := String.append new ".tmp" in
  let gz := String.append tmp ".gz" in
  exists fs',
    Writer.tryCompressAndRename gzip base new fs = (fs', None) /\
    fs' base = None /\
    fs' new = Some data /\
    fs' tmp = None /\
    fs' gz = Some (gzip data) /\
    forall p, p <> base -> p <> new -> p <> tmp -> p <> gz -> fs' p = fs p.
Proof.
  intros H. cbv zeta. rewrite (try_present timestamp data fs H). cbv zeta.
  eexists. split; [reflexivity|].
  assert (forall a b : string, a <> b -> String.eqb a b = false) as ne
    by (intros a b; apply String.eqb_neq).
  cbv beta delta [Writer.put Writer.remove].
  repeat split.
  - rewrite !ne by (names_differ).
    now rewrite String.eqb_refl.
  - now rewrite String.eqb_refl.
  - rewrite (ne _ (Writer.rotatedFilename base timestamp)) by (names_differ).
    now rewrite String.eqb_refl.
  - rewrite !(ne (String.append (String.append (Writer.rotatedFilename base timestamp) ".tmp") ".gz"))
      by (names_differ).
    now rewrite String.eqb_refl.
  - intros p Hb Hn Ht Hg.
    now rewrite (ne p _ Hb), (ne p _ Hn), (ne p _ Ht), (ne p _ Hg).
Qed.

(** X18 (retries).  [compressAndRename] stops at the first attempt that
    succeeds.  On a log file that exists the first attempt does; on a log
    file that is missing it makes three attempts, sleeps one second after
    each of them, the last included, leaves the files alone and returns
    the error of [os.Open]. *)
Theorem rotation_attempts (newFilename timestamp : string) (fs : Writer.FS) :
  (fs base = None ->
   Writer.compressAndRename gzip base newFilename fs
   = (fs,
      [Writer.Attempt; Writer.Sleep 1; Writer.Attempt; Writer.Sleep 1;
       Writer.Attempt; Writer.Sleep 1],
      Some (Writer.no_such_file "open" base))) /\
  (fs base <> None ->
   Writer.compressAndRename gzip base (Writer.rotatedFilename base timestamp) fs
   = (fst (Writer.tryCompressAndRename gzip base (Writer.rotatedFilename base timestamp) fs), [Writer.Attempt], None)).
Proof.
  unfold Writer.compressAndRename. split.
  - intros H. now rewrite (retry_missing newFilename fs 3 None H).
  - intros H. destruct (fs base) as [data|] eqn:Hb; [|congruence].
    cbn [Writer.retry].
    now rewrite (try_present timestamp data fs Hb).
Qed.

(** X19 (writing).  [Write] returns the byte count of the embedded logger in
    every case.  When the embedded logger fails, nothing is rotated and
    its error is returned; when it succeeds and the log file exists, the
    file is rotated in one attempt; when it succeeds and the log file is
    missing, the write still reports an error, after three attempts and
    three seconds of sleep. *)
Theorem Write_then_rotate
    (Logger_Write : string -> Writer.FS -> Writer.FS * (Z * option string))
    (timestamp p : string) (fs fs1 : Writer.FS) (n : Z) (e : option string) :
  Logger_Write p fs = (fs1, (n, e)) ->
  let result := Writer.Write gzip base Logger_Write timestamp p fs in
  fst (snd result) = n /\
  (e <> None -> result = (fs1, [], (n, e))) /\
  (e = None -> fs1 base <> None ->
   result = (fst (Writer.tryCompressAndRename gzip base (Writer.rotatedFilename base timestamp) fs1), [Writer.Attempt], (n, None))) /\
  (e = None -> fs1 base = None ->
   result = (fs1,
             [Writer.Attempt; Writer.Sleep 1; Writer.Attempt; Writer.Sleep 1;
              Writer.Attempt; Writer.Sleep 1],
             (n, Some (Writer.no_such_file "open" base)))).
Proof.
  intros HW. cbv zeta. unfold Writer.Write. rewrite HW.
  destruct e as [err|].
  - repeat split; congruence.
  - destruct (fs1 base) as [data|] eqn:Hb.
    + unfold Writer.compressAndRename. cbn [Writer.retry].
      rewrite (try_present timestamp data fs1 Hb).
      repeat split; congruence.
    + unfold Writer.compressAndRename.
      rewrite (retry_missing (Writer.rotatedFilename base timestamp) fs1 3 None Hb).
      repeat split; congruence.
Qed.

End RotatingWriter.

(** A log file of one line and the embedded logger that appends to it. *)
Lemma rotation_keeps_raw_log_witness :
  let fs : Writer.FS :=
    fun p => if String.eqb p "app.log" then Some "line" else None in
  fs "app.log" = Some "line" /\
  exists fs',
    Writer.tryCompressAndRename (fun s => String.append "gz:" s) "app.log"
      "app.log.2024-01-02_03-04-05.gz" fs = (fs', None) /\
    fs' "app.log" = None /\
    fs' "app.log.2024-01-02_03-04-05.gz" = Some "line" /\
    fs' "app.log.2024-01-02_03-04-05.gz.tmp" = None /\
    fs' "app.log.2024-01-02_03-04-05.gz.tmp.gz" = Some "gz:line" /\
    forall p, p <> "app.log" -> p <> "app.log.2024-01-02_03-04-05.gz" ->
      p <> "app.log.2024-01-02_03-04-05.gz.tmp" ->
      p <> "app.log.2024-01-02_03-04-05.gz.tmp.gz" -> fs' p = fs p.
Proof.
  cbv zeta. split; [reflexivity|].
  exact (rotation_keeps_raw_log (fun s => String.append "gz:" s) "app.log"
           "2024-01-02_03-04-05" "line"
           (fun p => if String.eqb p "app.log" then Some "line" else None)
           eq_refl).
Defined.

Lemma Write_then_rotate_witness :
  let fs : Writer.FS := fun _ => None in
  let append : string -> Writer.FS -> Writer.FS * (Z * option string) :=
    fun p fs => (Writer.put fs "app.log" p, (Z.of_nat (String.length p), None)) in
  append "line" fs = (Writer.put fs "app.log" "line", (4, None)) /\
  fst (snd (Writer.Write (fun s => String.append "gz:" s) "app.log" append
              "2024-01-02_03-04-05" "line" fs)) = 4.
Proof.
  cbv zeta. split; [reflexivity|].
  exact (proj1 (Write_then_rotate (fun s => String.append "gz:" s) "app.log"
                  (fun p fs => (Writer.put fs "app.log" p,
                                (Z.of_nat (String.length p), None)))
                  "2024-01-02_03-04-05" "line" (fun _ => None)
                  (Writer.put (fun _ => None) "app.log" "line") 4 None
                  eq_refl)).
Defined.

(** ** More on the ordering policy *)

(** X7 (the comparator).  Whatever the order string, the closure that
    services/snapshots.go hands to [sort.Slice] is a strict weak order, as
    [sort.Slice] requires: no record is less than itself, "less" is never
    mutual, it is transitive, and so is being unordered.  A record with a
    timestamp is less than every record without one, in both directions,
    and two records without a timestamp are unordered. *)
Theorem services_comparator (order : string) (a b c : Snapshot) :
  Services.less order a a = false /\
  (Services.less order a b = true -> Services.less order b a = false) /\
  (Services.less order a b = true -> Services.less order b c = true ->
   Services.less order a c = true) /\
  (Services.less order a b = false -> Services.less order b a = false ->
   Services.less order b c = false -> Services.less order c b = false ->
   Services.less order a c = false /\ Services.less order c a = false) /\
  (StartTime a <> None -> StartTime b = None ->
   Services.less order a b = true /\ Services.less order b a = false) /\
  (StartTime a = None -> StartTime b = None ->
   Services.less order a b = false).
Proof.
  unfold Services.less.
  destruct (String.eqb order "desc"), (StartTime a) as [ta|],
    (StartTime b) as [tb|], (StartTime c) as [tc|];
    repeat split; intros; try congruence; try lia;
    repeat match goal with
    | H : (_ <? _) = true |- _ => apply Z.ltb_lt in H
    | H : (_ <? _) = false |- _ => apply Z.ltb_ge in H
    | |- (_ <? _) = true => apply Z.ltb_lt
    | |- (_ <? _) = false => apply Z.ltb_ge
    end; lia.
Qed.

Lemma services_sort_order_witness :
  exists out,
    @Services.sortByCreatedTime insertionSort [S1; S4; S2; S3] "desc"
    = Return out /\
    Permutation [S1; S4; S2; S3] out /\
    forall (i j : nat) (a b : Snapshot),
      nth_error out i = Some a -> nth_error out j = Some b ->
      (StartTime a = None -> StartTime b <> None -> (j < i)%nat) /\
      (forall ta tb, StartTime a = Some ta -> StartTime b = Some tb ->
         ta < tb ->
         if String.eqb "desc" "desc" then (j < i)%nat else (i < j)%nat).
Proof.
  exact (@services_sort_order insertionSort insertionSort_spec
           [S1; S4; S2; S3] "desc").
Defined.

Lemma part000_sort_timed_witness :
  (List.length [S1; S2; S3] <= maxInsertion)%nat /\
  Forall (fun s => has_time s = true) [S1; S2; S3] /\
  @Part000.sortByCreatedTime insertionSort [S1; S2; S3] "asc"
  = @Services.sortByCreatedTime insertionSort [S1; S2; S3] "asc".
Proof.
  assert (List.length [S1; S2; S3] <= maxInsertion)%nat as H0
    by (unfold maxInsertion; simpl; lia).
  assert (Forall (fun s => has_time s = true) [S1; S2; S3]) as H
    by (repeat constructor).
  split; [exact H0|]. split; [exact H|].
  exact (part000_sort_timed "asc" [S1; S2; S3] H0 H).
Defined.

Lemma part000_sort_panics_witness :
  (2 <= List.length [S1; S2; S4] <= maxInsertion)%nat /\
  Exists (fun s => StartTime s = None) [S1; S2; S4] /\
  @Part000.sortByCreatedTime insertionSort [S1; S2; S4] "asc"
  = Panic NilDereference.
Proof.
  assert (2 <= List.length [S1; S2; S4] <= maxInsertion)%nat as H1
    by (unfold maxInsertion; simpl; lia).
  assert (Exists (fun s => StartTime s = None) [S1; S2; S4]) as H2
    by (right; right; left; reflexivity).
  split; [exact H1|]. split; [exact H2|].
  exact (part000_sort_panics "asc" [S1; S2; S4] H1 H2).
Defined.

(** ** Sorting, then selecting *)

Lemma StronglySorted_app_inv {A : Type} (Q : A -> A -> Prop) (x y : list A) :
  StronglySorted Q (x ++ y) ->
  forall a b, In a x -> In b y -> Q a b.
Proof.
  induction x as [|c x IH]; intros Hs a b Ha Hb; [destruct Ha|].
  simpl in Hs. inversion Hs as [|? ? Hs' Hc]; subst.
  destruct Ha as [-> | Ha].
  - rewrite Forall_forall in Hc. apply Hc. apply in_or_app. now right.
  - now apply IH.
Qed.

(** What "not less" says about two records. *)
Lemma services_not_less (order : string) (a b : Snapshot) :
  Services.less order b a = false ->
  (StartTime a = None -> StartTime b = None) /\
  (forall ta tb, StartTime a = Some ta -> StartTime b = Some tb ->
     if String.eqb order "desc" then tb <= ta else ta <= tb).
Proof.
  unfold Services.less. intros H. split.
  - intros Ha. rewrite Ha in H. destruct (StartTime b); [|reflexivity].
    destruct (String.eqb order "desc"); discriminate.
  - intros ta tb Ha Hb. rewrite Ha, Hb in H.
    destruct (String.eqb order "desc"); apply Z.ltb_ge in H; exact H.
Qed.

Section SortThenSelect.
Context {SS : SliceSort} {Spec : SliceSortSpec SS}.

(** X20 (which records go).  Sorting with services/snapshots.go and then
    selecting with a single count that is not negative cuts the sorted
    list in two.  KeepCount keeps the front and selects the rest;
    DeleteCount selects the front and keeps the rest.  No record of the
    rest sorts before a record of the front: a record without a timestamp
    in the front forces every record of the rest to have none, and of two
    timestamps the one in the front is the earlier or equal one, or for
    the order "desc" the later or equal one.  So KeepCount deletes the
    records without a timestamp first and DeleteCount deletes them
    last. *)
Theorem selection_follows_order (l : list Snapshot) (order : string) (c : Z) :
  0 <= c ->
  exists sorted front rest,
    Services.sortByCreatedTime l order = Return sorted /\
    Permutation l sorted /\
    sorted = front ++ rest /\
    Services.getToDeleteSnapshots sorted None (Some c) = ret rest /\
    Services.getToDeleteSnapshots sorted (Some c) None = ret front /\
    forall a b, In a front -> In b rest ->
      (StartTime a = None -> StartTime b = None) /\
      (forall ta tb, StartTime a = Some ta -> StartTime b = Some tb ->
         if String.eqb order "desc" then tb <= ta else ta <= tb).
Proof.
  intros Hc.
  destruct (services_sort_returns l order) as (sorted & Hsort & Hperm & Hs).
  exists sorted, (firstn (Z.to_nat c) sorted), (skipn (Z.to_nat c) sorted).
  split; [exact Hsort|]. split; [exact Hperm|].
  split; [symmetry; apply firstn_skipn|].
  split; [now apply services_keep_count|]. split.
  - rewrite services_delete_count. destruct (Z.leb_spec c 0); [|reflexivity].
    assert (c = 0) as -> by lia. reflexivity.
  - intros a b Ha Hb. apply services_not_less.
    rewrite <- (firstn_skipn (Z.to_nat c) sorted) in Hs.
    exact (StronglySorted_app_inv _ _ _ Hs a b Ha Hb).
Qed.

(** X21 (running again).  Let a first run with KeepCount k >= 0 select from
    its sorted inventory, and let the inventory of a second run hold
    exactly the records the first did not select, in any order.  Then the
    second run of services/snapshots.go with the same KeepCount calls the
    deletion executor for no record and returns, whatever its sort key. *)
Theorem keep_count_rerun (client : Client) (tagKey tagValue : string)
    (k : Z) (sorted selected kept : list Snapshot) (sortBy : string) :
  0 <= k ->
  outcome (Services.getToDeleteSnapshots sorted None (Some k))
  = Return selected ->
  Permutation sorted (kept ++ selected) ->
  DescribeSnapshots client (String.append "tag:" tagKey) [tagValue]
  = (Some (mkOutput kept), None) ->
  let again :=
    Services.CleanupSnapshots client tagKey tagValue None (Some k) sortBy in
  deletions (trace again) = [] /\ outcome again = Return tt.
Proof.
  intros Hk Hsel Hperm Hfetch. cbv zeta.
  apply (services_run_without_selection client tagKey tagValue None (Some k) kept
           sortBy Hfetch).
  simpl. right.
  rewrite services_keep_count in Hsel by assumption.
  injection Hsel as <-.
  apply Permutation_length in Hperm.
  rewrite length_app, length_skipn in Hperm.
  unfold len. lia.
Qed.

End SortThenSelect.

Lemma selection_follows_order_witness :
  0 <= 1 /\
  exists sorted front rest,
    @Services.sortByCreatedTime insertionSort [S1; S4; S2; S3] "asc"
    = Return sorted /\
    Permutation [S1; S4; S2; S3] sorted /\
    sorted = front ++ rest /\
    Services.getToDeleteSnapshots sorted None (Some 1) = ret rest /\
    Services.getToDeleteSnapshots sorted (Some 1) None = ret front /\
    forall a b, In a front -> In b rest ->
      (StartTime a = None -> StartTime b = None) /\
      (forall ta tb, StartTime a = Some ta -> StartTime b = Some tb ->
         if String.eqb "asc" "desc" then tb <= ta else ta <= tb).
Proof.
  assert (0 <= 1) as H by lia.
  split; [exact H|].
  exact (@selection_follows_order insertionSort insertionSort_spec
           [S1; S4; S2; S3] "asc" 1 H).
Defined.

Lemma keep_count_rerun_witness :
  deletions (trace (@Services.CleanupSnapshots insertionSort (stock [S2])
                      "env" "dev" None (Some 1) "created_time_asc")) = [] /\
  outcome (@Services.CleanupSnapshots insertionSort (stock [S2])
             "env" "dev" None (Some 1) "created_time_asc") = Return tt.
Proof.
  apply (@keep_count_rerun insertionSort insertionSort_spec (stock [S2])
           "env" "dev" 1 [S2; S3; S1] [S3; S1] [S2] "created_time_asc").
  - lia.
  - reflexivity.
  - apply Permutation_refl.
  - reflexivity.
Defined.
